(** * Matchmaking endpoint of the networking backend ([src/main.py])

    A shallow embedding of [get_matches] (POST /api/matches) together with
    the helpers it calls, and the properties of the ranking it computes.

    Modelling conventions.
    - A Python [set] of strings is a [gset string]; [len] is [size].
    - The score [2 * a + b + 0.5 * c] is a Python float.  Every value it
      takes is a multiple of one half, which binary64 represents exactly
      far beyond any list that fits in memory, so scores are rationals
      ([Q]) and compared with [Qeq]/[Qle].
    - [list.sort(key=..., reverse=True)] is a stable sort: entries with
      equal keys keep their relative order.  The result of a stable sort
      is determined by the key order alone, so it is modelled by a stable
      insertion sort ([sort_desc]).
    - The handler either returns a body or raises [HTTPException]; that
      is the sum type [response].
    - The profile collection is the list of its documents in the order
      in which [find({})] yields them; the store itself is assumed
      reachable. *)

From Stdlib Require Import ZArith QArith Lia Lqa Ascii String.
From stdpp Require Import base gmap sets list strings.

#[local] Set Warnings "-clear-no-such-hyp".

Local Close Scope Q_scope.
Local Open Scope Z_scope.
Local Open Scope nat_scope.

(** ** Python sequence operations used by the handler *)

Module Py.

(** [xs[:n]] for an arbitrary integer [n]: a non-negative [n] keeps the
    first [n] items, a negative [n] drops the last [|n|] items. *)
Definition slice_to {A} (xs : list A) (n : Z) : list A :=
  if (0 <=? n)%Z then take (Z.to_nat n) xs
  else take (length xs - Z.to_nat (- n)) xs.

(** [x or []] for an optional list. *)
Definition or_empty {A} (x : option (list A)) : list A :=
  match x with
  | Some l => l
  | None => []
  end.

(** Truth value of a string: only the empty string is falsy. *)
Definition truthy (s : string) : bool :=
  match s with
  | EmptyString => false
  | String _ _ => true
  end.

Section Sort.
Context {A : Type} (key : A → Q).

(** Insert [x] in front of the first entry whose key is not strictly
    greater than the key of [x]. *)
Fixpoint insert_desc (x : A) (l : list A) : list A :=
  match l with
  | [] => [x]
  | y :: l' =>
      if Qlt_le_dec (key x) (key y) then y :: insert_desc x l'
      else x :: l
  end.

(** [l.sort(key=key, reverse=True)]. *)
Definition sort_desc (l : list A) : list A := foldr insert_desc [] l.

(** Keys never increase along the list. *)
Fixpoint sorted_desc (l : list A) : Prop :=
  match l with
  | [] => True
  | x :: l' => Forall (λ y, (key y <= key x)%Q) l' ∧ sorted_desc l'
  end.
End Sort.

End Py.

(** ** Data model *)

(** The body of a response, or the status code of the [HTTPException]
    the handler raises. *)
Inductive response (A : Type) : Type :=
  | Ok (body : A)
  | HTTPException (status_code : Z).
Arguments Ok {A} body.
Arguments HTTPException {A} status_code.

(** [bson.ObjectId] belongs to an external library.  The handler uses
    three things of it: the constructor from a string, which raises
    [InvalidId] on a string that is not a well-formed id (here [None]),
    equality of ids, and [str], which renders distinct ids differently. *)
Class Bson (ObjectId : Type) := {
  ObjectId_eq_dec :: EqDecision ObjectId;
  ObjectId_parse : string → option ObjectId;
  ObjectId_str : ObjectId → string;
  ObjectId_str_inj :: Inj (=) (=) ObjectId_str
}.

(** [class MatchRequest(BaseModel)]; the fields [skills] and [interests]
    are prefixed, the names being taken by the profile document. *)
Record MatchRequest : Type := {
  profile_id : option string;
  goals : option string;
  req_skills : option (list string);
  req_interests : option (list string);
  limit : Z
}.

(** What [serialize_doc] returns for a stored profile: the key [_id] is
    replaced by [id], holding [str(_id)]; the other keys are kept. *)
Record serialized : Type := {
  id : string;
  s_name : string;
  s_email : string;
  s_skills : option (list string);
  s_interests : option (list string)
}.

(** One item of ["results"]: [serialize_doc(c) | {"match_score": s}]. *)
Record match_entry : Type := {
  profile : serialized;
  match_score : Q
}.

Section Matching.
Context {ObjectId : Type} `{!Bson ObjectId}.

(** A document of the [profile] collection.  [skills] and [interests]
    may be missing from a stored document ([c.get("skills", [])]). *)
Record doc : Type := Doc {
  _id : ObjectId;
  name : string;
  email : string;
  skills : option (list string);
  interests : option (list string)
}.

Definition serialize_doc (d : doc) : serialized :=
  {| id := ObjectId_str (_id d);
     s_name := name d;
     s_email := email d;
     s_skills := skills d;
     s_interests := interests d |}.

(** [db["profile"].find_one({"_id": oid})]: the first document of the
    collection with that [_id]. *)
Definition find_one (db : list doc) (oid : ObjectId) : option doc :=
  List.find (λ d, bool_decide (_id d = oid)) db.

(** ** The scoring loop *)

(** [set(c.get("skills", []))] and [set(c.get("interests", []))]. *)
Definition doc_skills (c : doc) : gset string :=
  list_to_set (Py.or_empty (skills c)).

Definition doc_interests (c : doc) : gset string :=
  list_to_set (Py.or_empty (interests c)).

(** Body of the loop, lines 247-252. *)
Definition score (base_skills base_interests : gset string) (c : doc) : Q :=
  let skills := doc_skills c in
  let interests := doc_interests c in
  let shared_interests := size (base_interests ∩ interests) in
  let complement_skills := size (skills ∖ base_skills) in
  let shared_skills := size (base_skills ∩ skills) in
  (2 * inject_Z (Z.of_nat shared_interests)
   + inject_Z (Z.of_nat shared_skills)
   + (1 # 2) * inject_Z (Z.of_nat complement_skills))%Q.

(** The score as the specification writes it, from the three counts:
    [2 * shared_interests + 1 * shared_skills + 0.5 * complement_skills]. *)
Definition weighted (shared_interests shared_skills complement_skills : nat) : Q :=
  (2 * inject_Z (Z.of_nat shared_interests)
   + 1 * inject_Z (Z.of_nat shared_skills)
   + (1 # 2) * inject_Z (Z.of_nat complement_skills))%Q.

(** [for c in candidates: ...; scored.append((score, c))], where the
    base profile, when there is one, is skipped. *)
Fixpoint score_all (base_profile : option doc)
    (base_skills base_interests : gset string)
    (candidates : list doc) : list (Q * doc) :=
  match candidates with
  | [] => []
  | c :: rest =>
      let tail := score_all base_profile base_skills base_interests rest in
      match base_profile with
      | Some b =>
          if bool_decide (_id c = _id b) then tail
          else (score base_skills base_interests c, c) :: tail
      | None => (score base_skills base_interests c, c) :: tail
      end
  end.

Definition entry_of (sc : Q * doc) : match_entry :=
  {| profile := serialize_doc sc.2; match_score := sc.1 |}.

(** Lines 242-256: score every candidate, sort, cut and render. *)
Definition rank (base_profile : option doc)
    (base_skills base_interests : gset string)
    (candidates : list doc) (limit : Z) : list match_entry :=
  let scored := score_all base_profile base_skills base_interests candidates in
  let scored := Py.sort_desc fst scored in
  entry_of <$> Py.slice_to scored limit.

(** Lines 232-234: the optional lookup of the base profile.  A string
    that [ObjectId] rejects raises, and the handler turns every
    exception into status 400. *)
Definition lookup_base (db : list doc) (payload : MatchRequest)
    : response (option doc) :=
  match profile_id payload with
  | Some s =>
      if Py.truthy s then
        match ObjectId_parse s with
        | Some oid => Ok (find_one db oid)
        | None => HTTPException 400
        end
      else Ok None
  | None => Ok None
  end.

(** Lines 235-240.  A stored document always has its [_id], so a
    profile that was found is truthy. *)
Definition base_sets (base_profile : option doc) (payload : MatchRequest)
    : gset string * gset string :=
  match base_profile with
  | Some b => (doc_skills b, doc_interests b)
  | None => (list_to_set (Py.or_empty (req_skills payload)),
             list_to_set (Py.or_empty (req_interests payload)))
  end.

(** [get_matches(payload)] against the collection [db]. *)
Definition get_matches (db : list doc) (payload : MatchRequest)
    : response (list match_entry) :=
  match lookup_base db payload with
  | HTTPException code => HTTPException code
  | Ok base_profile =>
      let '(base_skills, base_interests) := base_sets base_profile payload in
      Ok (rank base_profile base_skills base_interests db (limit payload))
  end.

(** ** Inputs that differ in duplicates only

    Used to state that scoring looks at the distinct strings of a list
    and at nothing else. *)

(** Two lists with the same distinct strings. *)
Definition same_strings (l l' : list string) : Prop := ∀ x, x ∈ l ↔ x ∈ l'.

Definition same_profile (c c' : doc) : Prop :=
  _id c = _id c'
  ∧ same_strings (Py.or_empty (skills c)) (Py.or_empty (skills c'))
  ∧ same_strings (Py.or_empty (interests c)) (Py.or_empty (interests c')).

Definition same_request (p p' : MatchRequest) : Prop :=
  profile_id p = profile_id p' ∧ limit p = limit p'
  ∧ same_strings (Py.or_empty (req_skills p)) (Py.or_empty (req_skills p'))
  ∧ same_strings (Py.or_empty (req_interests p)) (Py.or_empty (req_interests p')).

(** Two responses with the same status, or with the same ids and the
    same scores in the same order. *)
Definition same_scores (r r' : response (list match_entry)) : Prop :=
  match r, r' with
  | Ok l, Ok l' =>
      Forall2 (λ e e', id (profile e) = id (profile e')
                       ∧ match_score e = match_score e') l l'
  | HTTPException a, HTTPException a' => a = a'
  | _, _ => False
  end.

End Matching.

Arguments doc ObjectId : clear implicits.

(** ** A concrete [ObjectId]

    An id is twelve bytes, written as 24 hexadecimal digits.  Here an id
    is held as its lower-case rendering, so that [str] is the identity
    and two spellings of the same id that differ in case are equal. *)

Module Hex.

Definition is_hex (a : ascii) : bool :=
  let n := nat_of_ascii a in
  (48 <=? n) && (n <=? 57) || (65 <=? n) && (n <=? 70)
  || (97 <=? n) && (n <=? 102).

Definition lower (a : ascii) : ascii :=
  let n := nat_of_ascii a in
  if (65 <=? n) && (n <=? 70) then ascii_of_nat (n + 32) else a.

Definition parse (s : string) : option string :=
  let cs := list_ascii_of_string s in
  if (length cs =? 24) && forallb is_hex cs
  then Some (string_of_list_ascii (lower <$> cs))
  else None.

#[export] Instance bson : Bson string := {|
  ObjectId_parse := parse;
  ObjectId_str := λ s, s
|}.

Definition request (pid : option string) (sk it : option (list string))
    (n : Z) : MatchRequest :=
  {| profile_id := pid; goals := None;
     req_skills := sk; req_interests := it; limit := n |}.

Definition ada : doc string :=
  Doc "65f0a1b2c3d4e5f601234567" "Ada" "ada@example.org"
      (Some ["python"; "rust"]) (Some ["hiking"; "chess"]).

Definition bob : doc string :=
  Doc "65f0a1b2c3d4e5f601234568" "Bob" "bob@example.org" None None.

Definition cyd : doc string :=
  Doc "65f0a1b2c3d4e5f601234569" "Cyd" "cyd@example.org"
      (Some ["go"; "go"]) (Some ["hiking"]).

(** A profile with the given skills and interests. *)
Definition dee (sk it : list string) : doc string :=
  Doc "65f0a1b2c3d4e5f60123456a" "Dee" "dee@example.org" (Some sk) (Some it).

(** A well-formed id that no stored profile has. *)
Definition nobody : string := "65f0a1b2c3d4e5f6012345ff".

(** A string that [ObjectId] rejects. *)
Definition malformed : string := "not-an-id".

End Hex.

(** * Profiles and projects: the handlers that read and write one document

    Here a stored document is a Python [dict]: a finite map from keys to
    values ([gmap string value]; the order of the keys, which only shows
    in the order of a JSON object's members, is not modelled).  A
    collection is the list of its documents, and a handler that writes
    returns the new collection next to its response.  The queries are
    those of pymongo: [find_one] returns the first document that matches,
    [update_one] changes the first document that matches. *)

Module Crud.

(** [class ProfileUpdate(BaseModel)] *)
Module ProfileUpdate.
Record t : Type := {
  name : option string;
  headline : option string;
  bio : option string;
  skills : option (list string);
  interests : option (list string);
  timezone : option string;
  availability : option string;
  goals : option string;
  links : option (list string);
  verified : option bool
}.
End ProfileUpdate.

(** [class ProjectUpdate(BaseModel)] *)
Module ProjectUpdate.
Record t : Type := {
  title : option string;
  brief : option string;
  tags : option (list string);
  roles_needed : option (list string);
  status : option string;
  visibility : option string
}.
End ProjectUpdate.

(** [class Profile(BaseModel)] of [src/schemas.py], the payload of
    [create_profile]. *)
Module Profile.
Record t : Type := {
  name : string;
  email : string;
  headline : option string;
  bio : option string;
  skills : list string;
  interests : list string;
  timezone : option string;
  availability : option string;
  goals : option string;
  links : list string;
  verified : bool;
  reputation_score : Q
}.
End Profile.

Section Documents.
Context {ObjectId : Type} `{!Bson ObjectId}.

(** The values a document of these collections holds. *)
Inductive value : Type :=
  | VNone
  | VBool (b : bool)
  | VNum (q : Q)
  | VStr (s : string)
  | VList (l : list string)
  | VObjectId (o : ObjectId).

(** [not doc], for what [find_one] returns: no document, or an empty one. *)
Definition not_doc (doc : option (gmap string value)) : bool :=
  match doc with
  | None => true
  | Some d => bool_decide (size d = 0)
  end.

(** [serialize_doc(doc)], lines 24-32. *)
Definition serialize_doc (doc : option (gmap string value))
    : option (gmap string value) :=
  if not_doc doc then doc
  else
    match doc with
    | Some d =>
        match d !! "_id" with
        | Some (VObjectId _id) =>
            Some (delete "_id" (<["id" := VStr (ObjectId_str _id)]> d))
        | _ => Some d
        end
    | None => None
    end.

(** The filter [{"_id": oid}]. *)
Definition has_id (oid : ObjectId) (d : gmap string value) : bool :=
  match d !! "_id" with
  | Some (VObjectId o) => bool_decide (o = oid)
  | _ => false
  end.

(** The filter [{"email": s}]: the field is that string, or an array
    that holds it. *)
Definition has_email (s : string) (d : gmap string value) : bool :=
  match d !! "email" with
  | Some (VStr s') => bool_decide (s' = s)
  | Some (VList l) => bool_decide (s ∈ l)
  | _ => false
  end.

(** [collection.find_one(filter)] *)
Definition find_one (filter : gmap string value → bool)
    (coll : list (gmap string value)) : option (gmap string value) :=
  List.find filter coll.

(** [collection.update_one(filter, {"$set": update_data})]: the matched
    count and the collection afterwards. *)
Fixpoint update_one (filter : gmap string value → bool)
    (update_data : gmap string value) (coll : list (gmap string value))
    : nat * list (gmap string value) :=
  match coll with
  | [] => (0, [])
  | d :: rest =>
      if filter d then (1, (update_data ∪ d) :: rest)
      else
        let '(matched_count, rest') := update_one filter update_data rest in
        (matched_count, d :: rest')
  end.

(** [payload.model_dump(exclude_none=True)]: the fields that were given. *)
Definition put (k : string) (v : option value) (d : gmap string value)
    : gmap string value :=
  match v with
  | Some x => <[k := x]> d
  | None => d
  end.

Definition dump_profile_update (p : ProfileUpdate.t) : gmap string value :=
  put "name" (VStr <$> ProfileUpdate.name p)
  (put "headline" (VStr <$> ProfileUpdate.headline p)
  (put "bio" (VStr <$> ProfileUpdate.bio p)
  (put "skills" (VList <$> ProfileUpdate.skills p)
  (put "interests" (VList <$> ProfileUpdate.interests p)
  (put "timezone" (VStr <$> ProfileUpdate.timezone p)
  (put "availability" (VStr <$> ProfileUpdate.availability p)
  (put "goals" (VStr <$> ProfileUpdate.goals p)
  (put "links" (VList <$> ProfileUpdate.links p)
  (put "verified" (VBool <$> ProfileUpdate.verified p) ∅))))))))).

Definition dump_project_update (p : ProjectUpdate.t) : gmap string value :=
  put "title" (VStr <$> ProjectUpdate.title p)
  (put "brief" (VStr <$> ProjectUpdate.brief p)
  (put "tags" (VList <$> ProjectUpdate.tags p)
  (put "roles_needed" (VList <$> ProjectUpdate.roles_needed p)
  (put "status" (VStr <$> ProjectUpdate.status p)
  (put "visibility" (VStr <$> ProjectUpdate.visibility p) ∅))))).

(** [get_profile(profile_id)] on the profile collection, lines 116-124.
    Every exception, the 404 of the handler included, is answered 404. *)
Definition get_profile (coll : list (gmap string value)) (profile_id : string)
    : response (option (gmap string value)) :=
  match ObjectId_parse profile_id with
  | Some oid =>
      let doc := find_one (has_id oid) coll in
      if not_doc doc then HTTPException 404
      else Ok (serialize_doc doc)
  | None => HTTPException 404
  end.

(** [get_project(project_id)] on the project collection, lines 186-194. *)
Definition get_project (coll : list (gmap string value)) (project_id : string)
    : response (option (gmap string value)) :=
  match ObjectId_parse project_id with
  | Some oid =>
      let doc := find_one (has_id oid) coll in
      if not_doc doc then HTTPException 404
      else Ok (serialize_doc doc)
  | None => HTTPException 404
  end.

(** What an update handler returns: [{"updated": False}], or
    [serialize_doc(doc)]. *)
Inductive update_body : Type :=
  | NotUpdated
  | Document (doc : option (gmap string value)).

(** [update_profile(profile_id, payload)], lines 127-143: the response
    and the profile collection afterwards. *)
Definition update_profile (coll : list (gmap string value))
    (profile_id : string) (payload : ProfileUpdate.t)
    : response update_body * list (gmap string value) :=
  let update_data := dump_profile_update payload in
  if bool_decide (size update_data = 0) then (Ok NotUpdated, coll)
  else
    match ObjectId_parse profile_id with
    | Some oid =>
        let '(matched_count, coll') := update_one (has_id oid) update_data coll in
        if (matched_count =? 0)%nat then (HTTPException 404, coll')
        else (Ok (Document (serialize_doc (find_one (has_id oid) coll'))), coll')
    | None => (HTTPException 400, coll)
    end.

(** [update_project(project_id, payload)], lines 197-213. *)
Definition update_project (coll : list (gmap string value))
    (project_id : string) (payload : ProjectUpdate.t)
    : response update_body * list (gmap string value) :=
  let update_data := dump_project_update payload in
  if bool_decide (size update_data = 0) then (Ok NotUpdated, coll)
  else
    match ObjectId_parse project_id with
    | Some oid =>
        let '(matched_count, coll') := update_one (has_id oid) update_data coll in
        if (matched_count =? 0)%nat then (HTTPException 404, coll')
        else (Ok (Document (serialize_doc (find_one (has_id oid) coll'))), coll')
    | None => (HTTPException 400, coll)
    end.

(** The body the two update handlers share, for any [update_data]. *)
Definition update_by_id (update_data : gmap string value)
    (coll : list (gmap string value)) (id : string)
    : response update_body * list (gmap string value) :=
  if bool_decide (size update_data = 0) then (Ok NotUpdated, coll)
  else
    match ObjectId_parse id with
    | Some oid =>
        let '(matched_count, coll') := update_one (has_id oid) update_data coll in
        if (matched_count =? 0)%nat then (HTTPException 404, coll')
        else (Ok (Document (serialize_doc (find_one (has_id oid) coll'))), coll')
    | None => (HTTPException 400, coll)
    end.

Section CreateProfile.

(** [create_document] is defined in [database.py], which is not part of
    the sources at hand: it is taken as it is called, from the
    collection and the payload to the id it returns ([None] when it
    raises) and the collection it leaves. *)
Variable create_document :
  list (gmap string value) → Profile.t →
  option string * list (gmap string value).

(** [create_profile(payload)], lines 84-97.  The 409 is passed on; every
    other exception is answered 500. *)
Definition create_profile (coll : list (gmap string value))
    (payload : Profile.t)
    : response (option (gmap string value)) * list (gmap string value) :=
  let existing := find_one (has_email (Profile.email payload)) coll in
  if negb (not_doc existing) then (HTTPException 409, coll)
  else
    match create_document coll payload with
    | (Some inserted_id, coll') =>
        match ObjectId_parse inserted_id with
        | Some oid => (Ok (serialize_doc (find_one (has_id oid) coll')), coll')
        | None => (HTTPException 500, coll')
        end
    | (None, coll') => (HTTPException 500, coll')
    end.

End CreateProfile.

(** The dictionary of a profile document of the matching engine, and of
    what that engine renders. *)
Definition doc_dict (d : doc ObjectId) : gmap string value :=
  put "_id" (Some (VObjectId (_id d)))
  (put "name" (Some (VStr (name d)))
  (put "email" (Some (VStr (email d)))
  (put "skills" (VList <$> skills d)
  (put "interests" (VList <$> interests d) ∅)))).

Definition serialized_dict (s : serialized) : gmap string value :=
  put "id" (Some (VStr (id s)))
  (put "name" (Some (VStr (s_name s)))
  (put "email" (Some (VStr (s_email s)))
  (put "skills" (VList <$> s_skills s)
  (put "interests" (VList <$> s_interests s) ∅)))).

End Documents.

Arguments value ObjectId : clear implicits.

End Crud.

(** ** Sample collections and payloads, on the concrete ids *)

Module CrudHex.
Import Crud.

Definition profiles : list (gmap string (value string)) :=
  [doc_dict Hex.ada; doc_dict Hex.bob].

(** The body [{}]. *)
Definition nothing : ProfileUpdate.t :=
  {| ProfileUpdate.name := None; ProfileUpdate.headline := None;
     ProfileUpdate.bio := None; ProfileUpdate.skills := None;
     ProfileUpdate.interests := None; ProfileUpdate.timezone := None;
     ProfileUpdate.availability := None; ProfileUpdate.goals := None;
     ProfileUpdate.links := None; ProfileUpdate.verified := None |}.

(** The body [{"name": n, "skills": []}]. *)
Definition rename (n : string) : ProfileUpdate.t :=
  {| ProfileUpdate.name := Some n; ProfileUpdate.headline := None;
     ProfileUpdate.bio := None; ProfileUpdate.skills := Some [];
     ProfileUpdate.interests := None; ProfileUpdate.timezone := None;
     ProfileUpdate.availability := None; ProfileUpdate.goals := None;
     ProfileUpdate.links := None; ProfileUpdate.verified := None |}.

Definition project_id : string := "75f0a1b2c3d4e5f601234567".

Definition projects : list (gmap string (value string)) :=
  [ <["_id" := VObjectId project_id]>
    (<["owner_id" := VStr (_id Hex.ada)]>
    (<["title" := VStr "Compiler"]>
    (<["status" := VStr "open"]> ∅))) ].

(** The body [{"status": "completed"}]. *)
Definition complete : ProjectUpdate.t :=
  {| ProjectUpdate.title := None; ProjectUpdate.brief := None;
     ProjectUpdate.tags := None; ProjectUpdate.roles_needed := None;
     ProjectUpdate.status := Some "completed";
     ProjectUpdate.visibility := None |}.

(** A new profile with the given email. *)
Definition signup (e : string) : Profile.t :=
  {| Profile.name := "Eve"; Profile.email := e;
     Profile.headline := None; Profile.bio := None;
     Profile.skills := []; Profile.interests := [];
     Profile.timezone := None; Profile.availability := None;
     Profile.goals := None; Profile.links := [];
     Profile.verified := false; Profile.reputation_score := 0 |}.

(** An insertion that stores the name and the email under a fixed id. *)
Definition insert_as (i : string)
    (coll : list (gmap string (value string))) (p : Profile.t)
    : option string * list (gmap string (value string)) :=
  (Some i,
   coll ++ [ <["_id" := VObjectId i]>
             (<["name" := VStr (Profile.name p)]>
             (<["email" := VStr (Profile.email p)]> ∅)) ]).

End CrudHex.

(** * Properties *)

(** ** Slices and the stable descending sort *)

Module PyFacts.
Import Py.

Lemma slice_to_nil {A} (n : Z) : slice_to (@nil A) n = [].
Proof. unfold slice_to. destruct (0 <=? n)%Z; apply take_nil. Qed.

Lemma slice_to_0 {A} (xs : list A) : slice_to xs 0 = [].
Proof. reflexivity. Qed.

Lemma slice_to_take {A} (xs : list A) (n : Z) :
  ∃ k, slice_to xs n = take k xs.
Proof. unfold slice_to. destruct (0 <=? n)%Z; eauto. Qed.

Lemma slice_to_nonneg {A} (xs : list A) (n : Z) :
  (0 ≤ n)%Z → slice_to xs n = take (Z.to_nat n) xs.
Proof. intros Hn. unfold slice_to. by rewrite (proj2 (Z.leb_le 0 n) Hn). Qed.

Lemma slice_to_neg {A} (xs : list A) (n : Z) :
  (n < 0)%Z → slice_to xs n = take (length xs - Z.to_nat (- n)) xs.
Proof. intros Hn. unfold slice_to. by rewrite (proj2 (Z.leb_gt 0 n) Hn). Qed.

Lemma slice_to_length_le {A} (xs : list A) (n : Z) :
  length (slice_to xs n) ≤ length xs.
Proof. destruct (slice_to_take xs n) as [k ->]. rewrite length_take. lia. Qed.

Lemma slice_to_length_nonneg {A} (xs : list A) (n : Z) :
  (0 ≤ n)%Z → length (slice_to xs n) = Z.to_nat n `min` length xs.
Proof. intros Hn. rewrite slice_to_nonneg by done. apply length_take. Qed.

Lemma slice_to_length_neg {A} (xs : list A) (n : Z) :
  (n < 0)%Z → length (slice_to xs n) = length xs - Z.to_nat (- n).
Proof. intros Hn. rewrite slice_to_neg by done. rewrite length_take. lia. Qed.

Lemma slice_to_fmap {A B} (f : A → B) (xs : list A) (n : Z) :
  slice_to (f <$> xs) n = f <$> slice_to xs n.
Proof.
  unfold slice_to. rewrite length_fmap.
  destruct (0 <=? n)%Z; symmetry; apply fmap_take.
Qed.

Lemma elem_of_slice_to {A} (xs : list A) (n : Z) (x : A) :
  x ∈ slice_to xs n → x ∈ xs.
Proof.
  destruct (slice_to_take xs n) as [k ->]. intros Hx.
  rewrite <- (take_drop k xs). apply elem_of_app. by left.
Qed.

Section SortFacts.
Context {A : Type} (key : A → Q).

Lemma insert_desc_perm (x : A) (l : list A) : insert_desc key x l ≡ₚ x :: l.
Proof.
  induction l as [|y l IH]; simpl; [done|].
  destruct (Qlt_le_dec (key x) (key y)); [|done].
  rewrite IH. apply Permutation_swap.
Qed.

Lemma sort_desc_perm (l : list A) : sort_desc key l ≡ₚ l.
Proof.
  induction l as [|x l IH]; simpl; [done|].
  rewrite insert_desc_perm. by rewrite IH.
Qed.

Lemma sort_desc_length (l : list A) : length (sort_desc key l) = length l.
Proof. apply Permutation_length, sort_desc_perm. Qed.

Lemma elem_of_sort_desc (l : list A) (x : A) : x ∈ sort_desc key l ↔ x ∈ l.
Proof. by rewrite sort_desc_perm. Qed.

Lemma insert_desc_sorted (x : A) (l : list A) :
  sorted_desc key l → sorted_desc key (insert_desc key x l).
Proof.
  induction l as [|y l IH]; simpl.
  - intros _. split; [constructor | done].
  - intros [Hy Hl]. destruct (Qlt_le_dec (key x) (key y)) as [Hlt|Hle]; simpl.
    + split; [|by apply IH].
      rewrite insert_desc_perm. constructor; [by apply Qlt_le_weak | done].
    + split; [|done]. constructor; [done|].
      eapply Forall_impl; [exact Hy|]. simpl. intros z Hz.
      by apply Qle_trans with (key y).
Qed.

Lemma sort_desc_sorted (l : list A) : sorted_desc key (sort_desc key l).
Proof.
  induction l as [|x l IH]; simpl; [done|]. by apply insert_desc_sorted.
Qed.

(** A list that is already in descending order is left as it is: ties
    are not reordered. *)
Lemma sort_desc_sorted_id (l : list A) : sorted_desc key l → sort_desc key l = l.
Proof.
  induction l as [|x l IH]; simpl; [done|]. intros [Hx Hl].
  rewrite IH by done. destruct l as [|y l]; simpl; [done|].
  destruct (Qlt_le_dec (key x) (key y)) as [Hlt|Hle]; [|done].
  apply Forall_cons in Hx as [Hyx _].
  exfalso. by apply (Qlt_not_le _ _ Hlt).
Qed.

(** Stability: the entries of any one key value keep their order. *)
Lemma insert_desc_stable (q : Q) (x : A) (l : list A) :
  filter (λ a, Qeq_bool (key a) q = true) (insert_desc key x l)
  = filter (λ a, Qeq_bool (key a) q = true) (x :: l).
Proof.
  induction l as [|y l IH]; simpl; [done|].
  destruct (Qlt_le_dec (key x) (key y)) as [Hlt|Hle]; [|done].
  rewrite filter_cons, IH, !filter_cons.
  destruct (decide (Qeq_bool (key y) q = true)) as [Hy|Hy];
    destruct (decide (Qeq_bool (key x) q = true)) as [Hx|Hx]; try done.
  apply Qeq_bool_iff in Hy, Hx. rewrite Hy, Hx in Hlt.
  by apply Qlt_irrefl in Hlt.
Qed.

Lemma sort_desc_stable (q : Q) (l : list A) :
  filter (λ a, Qeq_bool (key a) q = true) (sort_desc key l)
  = filter (λ a, Qeq_bool (key a) q = true) l.
Proof.
  induction l as [|x l IH]; simpl; [done|].
  rewrite insert_desc_stable, !filter_cons, IH. done.
Qed.

(** The descending order that keeps ties in place is unique, so any
    stable sort returns [sort_desc]. *)
Lemma sorted_desc_stable_unique (l1 l2 : list A) :
  sorted_desc key l1 → sorted_desc key l2 →
  (∀ q, filter (λ a, Qeq_bool (key a) q = true) l1
        = filter (λ a, Qeq_bool (key a) q = true) l2) →
  l1 = l2.
Proof.
  assert (∀ a, Qeq_bool (key a) (key a) = true) as Hrefl.
  { intros a. by apply Qeq_bool_iff. }
  assert (∀ x t y u,
            Forall (λ z, (key z <= key x)%Q) t →
            filter (λ a, Qeq_bool (key a) (key y) = true) (x :: t)
            = filter (λ a, Qeq_bool (key a) (key y) = true) (y :: u) →
            (key y <= key x)%Q) as Hhead.
  { intros x t y u Hx Hf.
    assert (y ∈ x :: t) as Hy.
    { apply (list_elem_of_filter (λ a, Qeq_bool (key a) (key y) = true)).
      rewrite Hf, filter_cons_True by apply Hrefl. by left. }
    apply elem_of_cons in Hy as [->|Hy]; [apply Qle_refl|].
    by apply (proj1 (Forall_forall _ _) Hx). }
  revert l2. induction l1 as [|x t IH]; intros [|y u] H1 H2 Hf.
  - done.
  - specialize (Hf (key y)). by rewrite filter_cons_True in Hf by apply Hrefl.
  - specialize (Hf (key x)). by rewrite filter_cons_True in Hf by apply Hrefl.
  - destruct H1 as [Hx Ht], H2 as [Hy Hu].
    assert (key x == key y)%Q as Hxy.
    { apply Qle_antisym.
      - by apply (Hhead y u x t Hy).
      - by apply (Hhead x t y u Hx). }
    assert (x = y) as <-.
    { specialize (Hf (key x)).
      rewrite !filter_cons_True in Hf;
        [by injection Hf | apply Qeq_bool_iff; by symmetry | apply Hrefl]. }
    f_equal. apply IH; [done..|]. intros q. specialize (Hf q).
    rewrite !filter_cons in Hf.
    destruct (decide (Qeq_bool (key x) q = true)); [by injection Hf | done].
Qed.

Lemma sort_desc_unique (l l' : list A) :
  sorted_desc key l' →
  (∀ q, filter (λ a, Qeq_bool (key a) q = true) l'
        = filter (λ a, Qeq_bool (key a) q = true) l) →
  l' = sort_desc key l.
Proof.
  intros Hs Hf. apply sorted_desc_stable_unique; [done | apply sort_desc_sorted |].
  intros q. by rewrite sort_desc_stable.
Qed.

Lemma sorted_desc_take (k : nat) (l : list A) :
  sorted_desc key l → sorted_desc key (take k l).
Proof.
  revert k. induction l as [|x l IH]; intros [|k]; simpl; try done.
  intros [Hx Hl]. split; [by apply Forall_take | by apply IH].
Qed.

Lemma sorted_desc_slice_to (n : Z) (l : list A) :
  sorted_desc key l → sorted_desc key (slice_to l n).
Proof. destruct (slice_to_take l n) as [k ->]. apply sorted_desc_take. Qed.

Lemma sorted_desc_fmap {B} (f : B → A) (l : list B) :
  sorted_desc (key ∘ f) l → sorted_desc key (f <$> l).
Proof.
  induction l as [|x l IH]; simpl; [done|]. intros [Hx Hl].
  split; [|by apply IH]. by apply Forall_fmap.
Qed.

(** When no key differs from the others, any order is descending. *)
Lemma sorted_desc_ties (q : Q) (l : list A) :
  Forall (λ a, (key a == q)%Q) l → sorted_desc key l.
Proof.
  induction l as [|x l IH]; simpl; [done|]. intros [Hx Hl]%Forall_cons.
  split; [|by apply IH].
  eapply Forall_impl; [exact Hl|]. simpl. intros y Hy.
  rewrite Hx, Hy. apply Qle_refl.
Qed.

End SortFacts.

(** The sort looks at the keys only: two lists that are entry by entry
    related, with equal keys, are sorted alike. *)
Lemma sort_desc_Forall2 {A B} (ka : A → Q) (kb : B → Q) (R : A → B → Prop)
    (l : list A) (l' : list B) :
  (∀ a b, R a b → ka a = kb b) →
  Forall2 R l l' → Forall2 R (sort_desc ka l) (sort_desc kb l').
Proof.
  intros Hkey. induction 1 as [|a b l l' Hab Hl IH]; simpl; [constructor|].
  revert IH. generalize (sort_desc ka l) (sort_desc kb l'). clear l l' Hl.
  induction 1 as [|c d m m' Hcd Hm IH]; simpl; [by repeat constructor|].
  rewrite (Hkey _ _ Hab), (Hkey _ _ Hcd).
  destruct (Qlt_le_dec (kb b) (kb d)); by repeat constructor.
Qed.

End PyFacts.

(** ** The matching engine *)

Section MatchingFacts.
Context {ObjectId : Type} `{!Bson ObjectId}.
Implicit Types (db : list (doc ObjectId)) (c b : doc ObjectId).
Implicit Types (bp : option (doc ObjectId)) (payload : MatchRequest).
Implicit Types (bs bi : gset string) (e : match_entry).

Lemma find_one_Some db oid b : find_one db oid = Some b → b ∈ db ∧ _id b = oid.
Proof.
  unfold find_one. intros [Hin Hid]%find_some. split.
  - by apply list_elem_of_In.
  - by apply bool_decide_eq_true in Hid.
Qed.

Lemma find_one_None db oid c : find_one db oid = None → c ∈ db → _id c ≠ oid.
Proof.
  unfold find_one. intros Hnone Hin%list_elem_of_In.
  apply (find_none _ _ Hnone) in Hin. by apply bool_decide_eq_false in Hin.
Qed.

Lemma inject_nat_nonneg (n : nat) : (0 <= inject_Z (Z.of_nat n))%Q.
Proof. unfold Qle. simpl. lia. Qed.

Lemma score_weighted bs bi c :
  (score bs bi c ==
   weighted (size (bi ∩ doc_interests c)) (size (bs ∩ doc_skills c))
            (size (doc_skills c ∖ bs)))%Q.
Proof. unfold score, weighted. simpl. ring. Qed.

Lemma score_nonneg bs bi c : (0 <= score bs bi c)%Q.
Proof.
  unfold score. simpl.
  pose proof (inject_nat_nonneg (size (bi ∩ doc_interests c))).
  pose proof (inject_nat_nonneg (size (bs ∩ doc_skills c))).
  pose proof (inject_nat_nonneg (size (doc_skills c ∖ bs))).
  lra.
Qed.

Lemma score_all_None bs bi db :
  score_all None bs bi db = (λ c, (score bs bi c, c)) <$> db.
Proof. induction db as [|c db IH]; simpl; [done|]. by rewrite IH. Qed.

Lemma elem_of_score_all bp bs bi db s c :
  (s, c) ∈ score_all bp bs bi db ↔
  c ∈ db ∧ s = score bs bi c ∧ ∀ b, bp = Some b → _id c ≠ _id b.
Proof.
  induction db as [|c' db IH]; simpl.
  - split; [by intros ?%elem_of_nil | by intros [?%elem_of_nil _]].
  - destruct bp as [b|].
    + case_bool_decide as Hid.
      * rewrite IH, elem_of_cons. split.
        -- intros (?&?&?). by auto.
        -- intros [[->|Hin] [Hs Hne]]; [|done].
           by destruct (Hne b eq_refl).
      * rewrite !elem_of_cons, IH. split.
        -- intros [[= -> ->]|(?&?&?)]; [|by auto].
           split_and!; [by left|done|]. by intros ? [= <-].
        -- intros [[->|Hin] [-> Hne]]; [by left|by right].
    + rewrite !elem_of_cons, IH. split.
      * intros [[= -> ->]|(?&?&?)]; [|by auto].
        split_and!; [by left|done|done].
      * intros [[->|Hin] [-> Hne]]; [by left|by right].
Qed.

Lemma score_all_length_le bp bs bi db :
  length (score_all bp bs bi db) ≤ length db.
Proof.
  induction db as [|c db IH]; simpl; [done|].
  destruct bp as [b|]; [case_bool_decide|]; simpl; lia.
Qed.

(** A base profile that is in the pool is skipped, so the scored list is
    shorter than the pool. *)
Lemma score_all_length_lt b bs bi db :
  b ∈ db → length (score_all (Some b) bs bi db) < length db.
Proof.
  induction db as [|c db IH]; simpl; [by intros ?%elem_of_nil|].
  intros [->|Hin]%elem_of_cons.
  - rewrite bool_decide_eq_true_2 by done.
    pose proof (score_all_length_le (Some c) bs bi db). lia.
  - specialize (IH Hin). case_bool_decide; simpl; lia.
Qed.

Lemma elem_of_rank bp bs bi db n e :
  e ∈ rank bp bs bi db n →
  ∃ c, c ∈ db ∧ e = entry_of (score bs bi c, c)
       ∧ ∀ b, bp = Some b → _id c ≠ _id b.
Proof.
  unfold rank. intros [[s c] [-> Hin]]%list_elem_of_fmap.
  apply PyFacts.elem_of_slice_to, PyFacts.elem_of_sort_desc in Hin.
  apply elem_of_score_all in Hin as (Hc & -> & Hne). eauto.
Qed.

Lemma rank_sorted bp bs bi db n :
  Py.sorted_desc match_score (rank bp bs bi db n).
Proof.
  unfold rank. apply PyFacts.sorted_desc_fmap, PyFacts.sorted_desc_slice_to.
  apply (PyFacts.sort_desc_sorted fst).
Qed.

Lemma rank_length bp bs bi db n :
  length (rank bp bs bi db n)
  = length (Py.slice_to (score_all bp bs bi db) n).
Proof.
  unfold rank. rewrite length_fmap.
  unfold Py.slice_to. rewrite PyFacts.sort_desc_length.
  destruct (0 <=? n)%Z; rewrite !length_take, PyFacts.sort_desc_length; done.
Qed.

(** The handler answers 400 exactly when the base lookup raises; in
    every other case it returns the ranking. *)
Lemma get_matches_Ok db payload bp :
  lookup_base db payload = Ok bp →
  get_matches db payload
  = Ok (rank bp (base_sets bp payload).1 (base_sets bp payload).2
             db (limit payload)).
Proof. unfold get_matches. intros ->. by destruct (base_sets bp payload). Qed.

Lemma get_matches_inv db payload r :
  get_matches db payload = Ok r →
  ∃ bp, lookup_base db payload = Ok bp
        ∧ r = rank bp (base_sets bp payload).1 (base_sets bp payload).2
                   db (limit payload).
Proof.
  unfold get_matches. destruct (lookup_base db payload) as [bp|code]; [|done].
  destruct (base_sets bp payload) eqn:E. intros [= <-]. exists bp. by rewrite E.
Qed.

Lemma lookup_base_Some db payload b :
  lookup_base db payload = Ok (Some b) → b ∈ db.
Proof.
  unfold lookup_base. destruct (profile_id payload) as [s|]; [|done].
  destruct (Py.truthy s); [|done].
  destruct (ObjectId_parse s) as [oid|]; [|done].
  intros [= Hf]. by apply find_one_Some in Hf as [? _].
Qed.

(** C1.  The match score of a candidate is 2 times the number of
    interests it shares with the base, plus 1 times the number of skills
    it shares with the base, plus 0.5 times the number of its skills
    that the base lacks; every entry of a ranking carries that score of
    the candidate it renders; and for base skills python and go, base
    interest hiking, a candidate with skills python and rust and
    interests hiking and chess scores 3.5. *)
Theorem C1_match_score_formula :
  (∀ bs bi c,
     (score bs bi c ==
      2 * inject_Z (Z.of_nat (size (bi ∩ doc_interests c)))
      + 1 * inject_Z (Z.of_nat (size (bs ∩ doc_skills c)))
      + (1 # 2) * inject_Z (Z.of_nat (size (doc_skills c ∖ bs))))%Q)
  ∧ (∀ bp bs bi db n,
       Forall (λ e, ∃ c, c ∈ db ∧ profile e = serialize_doc c ∧
                 (match_score e ==
                  weighted (size (bi ∩ doc_interests c))
                           (size (bs ∩ doc_skills c))
                           (size (doc_skills c ∖ bs)))%Q)
              (rank bp bs bi db n))
  ∧ (∀ (i : ObjectId) (nm em : string),
       (score {["python"; "go"]} {["hiking"]}
              (Doc i nm em (Some ["python"; "rust"]) (Some ["hiking"; "chess"]))
        == 7 # 2)%Q).
Proof.
  split_and!.
  - intros bs bi c. apply score_weighted.
  - intros bp bs bi db n. apply Forall_forall. intros e He.
    apply elem_of_rank in He as (c & Hc & -> & _).
    exists c. split_and!; [done|done|]. apply score_weighted.
  - intros i nm em. by vm_compute.
Qed.

(** *** Resolution of the base profile *)

Lemma lookup_base_absent db payload :
  profile_id payload = None → lookup_base db payload = Ok None.
Proof. unfold lookup_base. by intros ->. Qed.

Lemma lookup_base_falsy db payload s :
  profile_id payload = Some s → Py.truthy s = false →
  lookup_base db payload = Ok None.
Proof. unfold lookup_base. by intros -> ->. Qed.

Lemma lookup_base_parsed db payload s oid :
  profile_id payload = Some s → Py.truthy s = true →
  ObjectId_parse s = Some oid →
  lookup_base db payload = Ok (find_one db oid).
Proof. unfold lookup_base. by intros -> -> ->. Qed.

Lemma lookup_base_malformed db payload s :
  profile_id payload = Some s → Py.truthy s = true →
  ObjectId_parse s = None →
  lookup_base db payload = HTTPException 400.
Proof. unfold lookup_base. by intros -> -> ->. Qed.

(** The lookup raises on nothing but a non-empty string that is not a
    well-formed id. *)
Lemma lookup_base_total db payload :
  (∀ s, profile_id payload = Some s → Py.truthy s = true →
        is_Some (ObjectId_parse s)) →
  ∃ bp, lookup_base db payload = Ok bp.
Proof.
  intros Hwf. unfold lookup_base.
  destruct (profile_id payload) as [s|]; [|by eauto].
  destruct (Py.truthy s) eqn:Ht; [|by eauto].
  destruct (Hwf s eq_refl Ht) as [oid ->]. by eauto.
Qed.

Lemma get_matches_unresolved db payload s oid :
  profile_id payload = Some s → Py.truthy s = true →
  ObjectId_parse s = Some oid → find_one db oid = None →
  get_matches db payload
  = Ok (rank None (list_to_set (Py.or_empty (req_skills payload)))
                  (list_to_set (Py.or_empty (req_interests payload)))
                  db (limit payload)).
Proof.
  intros Hp Ht Ho Hf.
  rewrite (get_matches_Ok db payload None); [done|].
  by rewrite (lookup_base_parsed db payload s oid), Hf.
Qed.

(** C2 (amended).  For every candidate pool and every limit that is not
    negative, the result of a match request is sorted in descending
    order of match score, has at most [limit] entries, its length is at
    most the minimum of [limit] and the size of the pool less one when a
    base profile was resolved (and so excluded), and every entry carries
    a non-negative match score. *)
Theorem C2_ranking_sorted_and_bounded db payload r :
  (0 ≤ limit payload)%Z →
  get_matches db payload = Ok r →
  Py.sorted_desc match_score r
  ∧ (Z.of_nat (length r) ≤ limit payload)%Z
  ∧ (∃ bp, lookup_base db payload = Ok bp ∧
       length r ≤ Z.to_nat (limit payload)
                  `min` (length db - match bp with Some _ => 1 | None => 0 end))
  ∧ Forall (λ e, (0 <= match_score e)%Q) r.
Proof.
  intros Hlim (bp & Hbp & ->)%get_matches_inv.
  set (bs := (base_sets bp payload).1). set (bi := (base_sets bp payload).2).
  assert (length (rank bp bs bi db (limit payload))
          ≤ Z.to_nat (limit payload)
            `min` (length db - match bp with Some _ => 1 | None => 0 end))
    as Hlen.
  { rewrite rank_length, PyFacts.slice_to_length_nonneg by done.
    destruct bp as [b|].
    - pose proof (score_all_length_lt b bs bi db (lookup_base_Some _ _ _ Hbp)).
      lia.
    - pose proof (score_all_length_le None bs bi db). lia. }
  split_and!.
  - apply rank_sorted.
  - lia.
  - by exists bp.
  - apply Forall_forall. intros e (c & _ & -> & _)%elem_of_rank.
    apply score_nonneg.
Qed.

(** C3 (amended).  When the profile id of a request is a well-formed id
    that no stored profile has, the handler does not fail: it ranks the
    whole pool against the skills and interests of the request, which
    are empty sets when the request omits them. *)
Theorem C3_unresolved_base_falls_back_to_request db payload s oid :
  profile_id payload = Some s → Py.truthy s = true →
  ObjectId_parse s = Some oid → find_one db oid = None →
  get_matches db payload
  = Ok (rank None (list_to_set (Py.or_empty (req_skills payload)))
                  (list_to_set (Py.or_empty (req_interests payload)))
                  db (limit payload))
  ∧ (req_skills payload = None → req_interests payload = None →
     get_matches db payload = Ok (rank None ∅ ∅ db (limit payload))).
Proof.
  intros Hp Ht Ho Hf.
  pose proof (get_matches_unresolved db payload s oid Hp Ht Ho Hf) as Hg.
  split; [done|]. intros Hs Hi. by rewrite Hg, Hs, Hi.
Qed.

(** C4.  When the profile id of a request resolves to a stored profile,
    that profile is in the candidate pool and no entry of the result
    renders it: no entry has its id. *)
Theorem C4_base_profile_never_returned db payload s oid b :
  profile_id payload = Some s → Py.truthy s = true →
  ObjectId_parse s = Some oid → find_one db oid = Some b →
  b ∈ db
  ∧ ∃ r, get_matches db payload = Ok r
         ∧ ∀ e, e ∈ r →
             id (profile e) ≠ ObjectId_str (_id b)
             ∧ profile e ≠ serialize_doc b.
Proof.
  intros Hp Ht Ho Hf.
  assert (lookup_base db payload = Ok (Some b)) as Hbp.
  { by rewrite (lookup_base_parsed db payload s oid), Hf. }
  split; [by eapply lookup_base_Some|].
  eexists. split; [by apply get_matches_Ok|].
  intros e (c & _ & -> & Hne)%elem_of_rank.
  assert (ObjectId_str (_id c) ≠ ObjectId_str (_id b)) as Hstr.
  { intros Heq%(inj ObjectId_str). by apply (Hne b). }
  split; [done|]. simpl. intros Heq. apply Hstr.
  by apply (f_equal id) in Heq.
Qed.

Lemma list_to_set_empty_iff (l : list string) :
  list_to_set l = (∅ : gset string) ↔ l = [].
Proof.
  split; [|by intros ->]. destruct l as [|x l]; [done|]. intros Hl.
  exfalso. apply (not_elem_of_empty (C:=gset string) x).
  rewrite <- Hl. set_solver.
Qed.

(** C9 (amended).  A request whose profile id is a non-empty string that
    is not a well-formed id is answered with status 400.  With a
    non-empty profile id, the handler goes on without a base profile
    only when the id is well formed and no stored profile has it, and it
    then takes the base sets from the skills and interests of the
    request; these are both empty exactly when each list is omitted or
    empty. *)
Theorem C9_malformed_id_rejected db payload s :
  profile_id payload = Some s → Py.truthy s = true →
  (ObjectId_parse s = None → get_matches db payload = HTTPException 400)
  ∧ (lookup_base db payload = Ok None →
     ∃ oid, ObjectId_parse s = Some oid ∧ find_one db oid = None)
  ∧ (∀ oid, ObjectId_parse s = Some oid → find_one db oid = None →
       get_matches db payload
       = Ok (rank None (list_to_set (Py.or_empty (req_skills payload)))
                       (list_to_set (Py.or_empty (req_interests payload)))
                       db (limit payload)))
  ∧ (list_to_set (Py.or_empty (req_skills payload)) = (∅ : gset string) ↔
     Py.or_empty (req_skills payload) = [])
  ∧ (list_to_set (Py.or_empty (req_interests payload)) = (∅ : gset string) ↔
     Py.or_empty (req_interests payload) = []).
Proof.
  intros Hp Ht. split_and!.
  - intros Ho. unfold get_matches.
    by rewrite (lookup_base_malformed db payload s).
  - unfold lookup_base. rewrite Hp, Ht.
    destruct (ObjectId_parse s) as [oid|]; [|done].
    intros [= Hf]. by exists oid.
  - intros oid Ho Hf. by apply (get_matches_unresolved db payload s oid).
  - apply list_to_set_empty_iff.
  - apply list_to_set_empty_iff.
Qed.

(** *** Duplicates *)

Lemma same_strings_set (l l' : list string) :
  same_strings l l' → list_to_set l = (list_to_set l' : gset string).
Proof.
  intros Hl. apply set_eq. intros x. rewrite !elem_of_list_to_set. apply Hl.
Qed.

Lemma same_strings_remove_dups (l : list string) :
  same_strings (remove_dups l) l.
Proof. intros x. apply elem_of_remove_dups. Qed.

Lemma same_profile_sets c c' :
  same_profile c c' →
  doc_skills c = doc_skills c' ∧ doc_interests c = doc_interests c'.
Proof.
  intros (_ & Hs & Hi). unfold doc_skills, doc_interests.
  split; by apply same_strings_set.
Qed.

Lemma same_profile_score bs bi c c' :
  same_profile c c' → score bs bi c = score bs bi c'.
Proof. intros [Hs Hi]%same_profile_sets. unfold score. by rewrite Hs, Hi. Qed.

Lemma find_one_Forall2 db db' oid :
  Forall2 same_profile db db' →
  option_Forall2 same_profile (find_one db oid) (find_one db' oid).
Proof.
  unfold find_one. induction 1 as [|c c' db db' Hc Hdb IH]; simpl.
  - constructor.
  - destruct Hc as (Hid & Hs & Hi). rewrite <- Hid.
    case_bool_decide; [|done]. by constructor.
Qed.

Lemma score_all_Forall2 bp bp' bs bi db db' :
  option_Forall2 same_profile bp bp' →
  Forall2 same_profile db db' →
  Forall2 (λ x y, x.1 = y.1 ∧ same_profile x.2 y.2)
          (score_all bp bs bi db) (score_all bp' bs bi db').
Proof.
  intros Hbp. induction 1 as [|c c' db db' Hc Hdb IH]; simpl; [constructor|].
  assert (Forall2 (λ x y, x.1 = y.1 ∧ same_profile x.2 y.2)
            ((score bs bi c, c) :: score_all bp bs bi db)
            ((score bs bi c', c') :: score_all bp' bs bi db')) as Hcons.
  { constructor; [|done]. split; [|done]. by apply same_profile_score. }
  destruct Hbp as [b b' Hb|]; [|done].
  destruct Hc as (Hid & _), Hb as (Hidb & _). rewrite <- Hid, <- Hidb.
  by case_bool_decide.
Qed.

Lemma get_matches_same_scores db db' p p' :
  Forall2 same_profile db db' → same_request p p' →
  same_scores (get_matches db p) (get_matches db' p').
Proof.
  intros Hdb (Hpid & Hlim & Hs & Hi).
  assert (match lookup_base db p, lookup_base db' p' with
          | Ok bp, Ok bp' => option_Forall2 same_profile bp bp'
          | HTTPException a, HTTPException a' => a = a'
          | _, _ => False
          end) as Hbase.
  { unfold lookup_base. rewrite <- Hpid.
    destruct (profile_id p) as [s|]; [|constructor].
    destruct (Py.truthy s); [|constructor].
    destruct (ObjectId_parse s) as [oid|]; [|done].
    by apply find_one_Forall2. }
  unfold get_matches.
  destruct (lookup_base db p) as [bp|a], (lookup_base db' p') as [bp'|a'];
    try done.
  assert (base_sets bp p = base_sets bp' p') as Hsets.
  { destruct Hbase as [b b' Hb|]; simpl.
    - apply same_profile_sets in Hb as [-> ->]. done.
    - by rewrite (same_strings_set _ _ Hs), (same_strings_set _ _ Hi). }
  rewrite <- Hsets, <- Hlim. destruct (base_sets bp p) as [bs bi]. simpl.
  unfold rank. apply Forall2_fmap.
  pose proof (PyFacts.sort_desc_Forall2 fst fst _ _ _
                (λ x y (H : x.1 = y.1 ∧ same_profile x.2 y.2), proj1 H)
                (score_all_Forall2 bp bp' bs bi db db' Hbase Hdb)) as Hsorted.
  unfold Py.slice_to. rewrite <- (Forall2_length _ _ _ Hsorted).
  assert (∀ k, Forall2 (λ x y, id (profile (entry_of x)) = id (profile (entry_of y))
                          ∧ match_score (entry_of x) = match_score (entry_of y))
                 (take k (Py.sort_desc fst (score_all bp bs bi db)))
                 (take k (Py.sort_desc fst (score_all bp' bs bi db')))) as Htake.
  { intros k. apply Forall2_take. eapply Forall2_impl; [exact Hsorted|].
    simpl. intros [q c] [q' c'] [Hq (Hid & _)]. simpl in *.
    by rewrite Hid. }
  destruct (0 <=? limit p)%Z; apply Htake.
Qed.

(** C8.  Duplicate entries never change a match score.  The score of a
    candidate is the same for any two base skill lists, base interest
    lists and candidate lists that hold the same distinct strings; and
    two requests against two pools that differ only in such duplicates
    (in the request, in the base profile, in the candidates) get the
    same status, or the same ids with the same scores in the same
    order. *)
Theorem C8_duplicates_do_not_change_scores :
  (∀ (bsl bsl' bil bil' : list string) c c',
     same_strings bsl bsl' → same_strings bil bil' →
     same_strings (Py.or_empty (skills c)) (Py.or_empty (skills c')) →
     same_strings (Py.or_empty (interests c)) (Py.or_empty (interests c')) →
     score (list_to_set bsl) (list_to_set bil) c
     = score (list_to_set bsl') (list_to_set bil') c')
  ∧ (∀ db db' p p',
       Forall2 same_profile db db' → same_request p p' →
       same_scores (get_matches db p) (get_matches db' p')).
Proof.
  split.
  - intros bsl bsl' bil bil' c c' Hbs Hbi Hs Hi.
    rewrite (same_strings_set _ _ Hbs), (same_strings_set _ _ Hbi).
    unfold score, doc_skills, doc_interests.
    by rewrite (same_strings_set _ _ Hs), (same_strings_set _ _ Hi).
  - apply get_matches_same_scores.
Qed.

(** *** Scores against an empty base *)

Lemma score_empty_base c :
  (score ∅ ∅ c == (1 # 2) * inject_Z (Z.of_nat (size (doc_skills c))))%Q.
Proof.
  unfold score. simpl.
  rewrite !intersection_empty_l_L, difference_empty_L, size_empty. simpl. ring.
Qed.

Lemma score_empty_base_no_skills c :
  doc_skills c = ∅ → (score ∅ ∅ c == 0)%Q.
Proof. intros Hc. rewrite score_empty_base, Hc, size_empty. reflexivity. Qed.

Lemma half_inject_nat_eq (n m : nat) :
  ((1 # 2) * inject_Z (Z.of_nat n) == (1 # 2) * inject_Z (Z.of_nat m))%Q
  ↔ n = m.
Proof. unfold Qeq. simpl. lia. Qed.

Lemma filter_on_elements {A} (P Q : A → Prop)
    `{!∀ x, Decision (P x), !∀ x, Decision (Q x)} (l : list A) :
  (∀ x, x ∈ l → (P x ↔ Q x)) → filter P l = filter Q l.
Proof.
  induction l as [|x l IH]; [done|]. intros Hl. rewrite !filter_cons.
  rewrite IH by (intros y Hy; apply Hl; by right).
  pose proof (Hl x ltac:(by left)) as Hx.
  destruct (decide (P x)), (decide (Q x)); tauto || done.
Qed.

Lemma filter_snd {A B} (P : B → Prop) `{!∀ x, Decision (P x)}
    (l : list (A * B)) :
  filter P (l.*2) = (filter (λ x, P x.2) l).*2.
Proof.
  induction l as [|x l IH]; [done|]. rewrite fmap_cons, !filter_cons, IH.
  by destruct (decide (P x.2)).
Qed.

Lemma sorted_desc_snd {A} (key : A → Q) (l : list (Q * A)) :
  Forall (λ x, (x.1 == key x.2)%Q) l →
  Py.sorted_desc fst l → Py.sorted_desc key (l.*2).
Proof.
  induction 1 as [|x l Hx Hl IH]; simpl; [done|]. intros [Hle Hs].
  split; [|by apply IH]. apply Forall_fmap, Forall_forall. intros y Hy. simpl.
  rewrite <- Hx, <- (proj1 (Forall_forall _ _) Hl y Hy).
  by apply (proj1 (Forall_forall _ _) Hle).
Qed.

(** The ranking against an empty base, told without the sort: the
    candidates in descending order of half their number of skills, those
    with as many skills in the order of the pool. *)
Lemma rank_empty_base db (n : Z) :
  ∃ ranked,
    ranked ≡ₚ db
    ∧ Py.sorted_desc
        (λ c, ((1 # 2) * inject_Z (Z.of_nat (size (doc_skills c))))%Q) ranked
    ∧ (∀ k, filter (λ c, size (doc_skills c) = k) ranked
            = filter (λ c, size (doc_skills c) = k) db)
    ∧ Forall2 (λ e c, profile e = serialize_doc c
                      ∧ (match_score e
                         == (1 # 2) * inject_Z (Z.of_nat (size (doc_skills c))))%Q)
              (rank None ∅ ∅ db n) (Py.slice_to ranked n).
Proof.
  unfold rank. rewrite score_all_None.
  set (scored := (λ c, (score ∅ ∅ c, c)) <$> db).
  set (sorted := Py.sort_desc fst scored).
  assert (scored.*2 = db) as Hdb.
  { unfold scored. rewrite <- list_fmap_compose. apply list_fmap_id. }
  assert (∀ x, x ∈ sorted → x.1 = score ∅ ∅ x.2) as Hscore.
  { intros x Hx%PyFacts.elem_of_sort_desc.
    by apply list_elem_of_fmap in Hx as (c & -> & _). }
  assert (∀ x, x ∈ scored → x.1 = score ∅ ∅ x.2) as Hscore'.
  { intros x Hx. by apply Hscore, PyFacts.elem_of_sort_desc. }
  assert (∀ k (x : Q * doc ObjectId), x.1 = score ∅ ∅ x.2 →
            size (doc_skills x.2) = k ↔
            Qeq_bool x.1 ((1 # 2) * inject_Z (Z.of_nat k)) = true) as Hkey.
  { intros k x ->. rewrite Qeq_bool_iff, score_empty_base.
    by rewrite half_inject_nat_eq. }
  exists (sorted.*2). split_and!.
  - rewrite <- Hdb. unfold sorted. by rewrite PyFacts.sort_desc_perm.
  - apply sorted_desc_snd; [|apply PyFacts.sort_desc_sorted].
    apply Forall_forall. intros x Hx. simpl.
    rewrite (Hscore x Hx). apply score_empty_base.
  - intros k. rewrite <- Hdb, !filter_snd. f_equal.
    rewrite (filter_on_elements _
               (λ x, Qeq_bool x.1 ((1 # 2) * inject_Z (Z.of_nat k)) = true)
               sorted) by (intros x Hx; by apply Hkey, Hscore).
    rewrite (filter_on_elements _
               (λ x, Qeq_bool x.1 ((1 # 2) * inject_Z (Z.of_nat k)) = true)
               scored) by (intros x Hx; by apply Hkey, Hscore').
    apply (PyFacts.sort_desc_stable fst).
  - rewrite PyFacts.slice_to_fmap. apply Forall2_fmap, Forall_Forall2_diag.
    apply Forall_forall. intros x Hx%PyFacts.elem_of_slice_to. simpl.
    split; [done|]. rewrite (Hscore x Hx). apply score_empty_base.
Qed.

(** C5 (amended).  When the profile id of a request is a well-formed id
    that no stored profile has and the request gives no skills and no
    interests, every candidate is scored half the number of its distinct
    skills, and the result is the pool sorted in descending order of
    that score, ties in corpus order, cut by [limit]: the entries
    returned render, with those scores, the beginning (as the slice
    [[:limit]] cuts it) of the one rearrangement of the pool in which
    the number of skills never increases and candidates with as many
    skills stand in the order of the pool.  When no candidate has a
    skill, every score is 0 and the result is the pool in its original
    order, cut by [limit]. *)
Theorem C5_unresolved_base_without_attributes db payload s oid :
  profile_id payload = Some s → Py.truthy s = true →
  ObjectId_parse s = Some oid → find_one db oid = None →
  req_skills payload = None → req_interests payload = None →
  get_matches db payload
  = Ok (entry_of <$>
          Py.slice_to (Py.sort_desc fst ((λ c, (score ∅ ∅ c, c)) <$> db))
                      (limit payload))
  ∧ (∀ c, (score ∅ ∅ c
           == (1 # 2) * inject_Z (Z.of_nat (size (doc_skills c))))%Q)
  ∧ ((∀ c, c ∈ db → doc_skills c = ∅) →
     ∃ r, get_matches db payload = Ok r
          ∧ Forall (λ e, (match_score e == 0)%Q) r
          ∧ profile <$> r = serialize_doc <$> Py.slice_to db (limit payload))
  ∧ (∃ r ranked,
       get_matches db payload = Ok r
       ∧ ranked ≡ₚ db
       ∧ Py.sorted_desc
           (λ c, ((1 # 2) * inject_Z (Z.of_nat (size (doc_skills c))))%Q)
           ranked
       ∧ (∀ k, filter (λ c, size (doc_skills c) = k) ranked
               = filter (λ c, size (doc_skills c) = k) db)
       ∧ Forall2 (λ e c,
                    profile e = serialize_doc c
                    ∧ (match_score e
                       == (1 # 2) * inject_Z (Z.of_nat (size (doc_skills c))))%Q)
                 r (Py.slice_to ranked (limit payload))
       ∧ Py.sorted_desc match_score r).
Proof.
  intros Hp Ht Ho Hf Hs Hi.
  pose proof (get_matches_unresolved db payload s oid Hp Ht Ho Hf) as Hg.
  rewrite Hs, Hi in Hg. simpl in Hg.
  assert (get_matches db payload
          = Ok (entry_of <$>
                  Py.slice_to
                    (Py.sort_desc fst ((λ c, (score ∅ ∅ c, c)) <$> db))
                    (limit payload))) as Hg'.
  { rewrite Hg. unfold rank. by rewrite score_all_None. }
  split_and!; [done | apply score_empty_base | |].
  - intros Hnone. eexists. split; [exact Hg'|].
    assert (Py.sorted_desc fst ((λ c, (score ∅ ∅ c, c)) <$> db)) as Hsorted.
    { apply (PyFacts.sorted_desc_ties fst 0%Q), Forall_fmap, Forall_forall.
      intros c Hc. simpl. by apply score_empty_base_no_skills, Hnone. }
    rewrite (PyFacts.sort_desc_sorted_id fst _ Hsorted).
    rewrite PyFacts.slice_to_fmap. split.
    + rewrite <- list_fmap_compose. apply Forall_fmap, Forall_forall.
      intros c Hc%PyFacts.elem_of_slice_to. simpl.
      by apply score_empty_base_no_skills, Hnone.
    + rewrite <- !list_fmap_compose. done.
  - destruct (rank_empty_base db (limit payload))
      as (ranked & Hperm & Hdesc & Hstable & Hrel).
    exists (rank None ∅ ∅ db (limit payload)), ranked.
    split_and!; [done..|]. apply rank_sorted.
Qed.

(** *** One more string in a candidate *)

Lemma size_add_fresh (x : string) (X : gset string) :
  x ∉ X → size ({[x]} ∪ X) = S (size X).
Proof. intros Hx. rewrite size_union by set_solver. by rewrite size_singleton. Qed.

Lemma inject_nat_S (n : nat) :
  (inject_Z (Z.of_nat (S n)) == inject_Z (Z.of_nat n) + 1)%Q.
Proof. rewrite Nat2Z.inj_succ. unfold Z.succ. by rewrite inject_Z_plus. Qed.

(** C6.  Giving a candidate one more interest that the base has raises
    its score by exactly 2 (so strictly); one more skill that the base
    has raises it by exactly 1; one more skill that the base lacks
    raises it by exactly 0.5.  The string is new to the list it joins
    and the other list is unchanged. *)
Theorem C6_one_more_string_raises_score bs bi c c' (x : string) :
  (x ∈ bi → x ∉ doc_interests c →
   doc_interests c' = {[x]} ∪ doc_interests c → doc_skills c' = doc_skills c →
   (score bs bi c' == score bs bi c + 2)%Q
   ∧ (score bs bi c < score bs bi c')%Q)
  ∧ (x ∈ bs → x ∉ doc_skills c →
     doc_skills c' = {[x]} ∪ doc_skills c → doc_interests c' = doc_interests c →
     (score bs bi c' == score bs bi c + 1)%Q
     ∧ (score bs bi c < score bs bi c')%Q)
  ∧ (x ∉ bs → x ∉ doc_skills c →
     doc_skills c' = {[x]} ∪ doc_skills c → doc_interests c' = doc_interests c →
     (score bs bi c' == score bs bi c + (1 # 2))%Q
     ∧ (score bs bi c < score bs bi c')%Q).
Proof.
  split_and!.
  - intros Hb Hc Hi Hs.
    assert (score bs bi c' == score bs bi c + 2)%Q as Heq.
    { unfold score. simpl. rewrite Hi, Hs.
      replace (bi ∩ ({[x]} ∪ doc_interests c))
        with ({[x]} ∪ bi ∩ doc_interests c) by set_solver.
      rewrite size_add_fresh by set_solver. rewrite inject_nat_S. ring. }
    split; [done|]. rewrite Heq. lra.
  - intros Hb Hc Hs Hi.
    assert (score bs bi c' == score bs bi c + 1)%Q as Heq.
    { unfold score. simpl. rewrite Hi, Hs.
      replace (bs ∩ ({[x]} ∪ doc_skills c))
        with ({[x]} ∪ bs ∩ doc_skills c) by set_solver.
      replace (({[x]} ∪ doc_skills c) ∖ bs)
        with (doc_skills c ∖ bs) by set_solver.
      rewrite size_add_fresh by set_solver. rewrite inject_nat_S. ring. }
    split; [done|]. rewrite Heq. lra.
  - intros Hb Hc Hs Hi.
    assert (score bs bi c' == score bs bi c + (1 # 2))%Q as Heq.
    { unfold score. simpl. rewrite Hi, Hs.
      replace (bs ∩ ({[x]} ∪ doc_skills c))
        with (bs ∩ doc_skills c) by set_solver.
      replace (({[x]} ∪ doc_skills c) ∖ bs)
        with ({[x]} ∪ doc_skills c ∖ bs) by set_solver.
      rewrite size_add_fresh by set_solver. rewrite inject_nat_S. ring. }
    split; [done|]. rewrite Heq. lra.
Qed.

(** *** The ends of the range of [limit] *)

Lemma rank_nil bp bs bi n : rank bp bs bi [] n = [].
Proof. unfold rank. simpl. by rewrite PyFacts.slice_to_nil. Qed.

Lemma rank_0 bp bs bi db : rank bp bs bi db 0 = [].
Proof. reflexivity. Qed.

(** C7 (amended).  For every match request whose profile id is omitted,
    empty or a well-formed id, the result is the empty sequence, and no
    error is raised, if the candidate pool is empty, and likewise if
    [limit] is 0, whatever the size of the pool. *)
Theorem C7_empty_pool_or_zero_limit db payload :
  (∀ s, profile_id payload = Some s → Py.truthy s = true →
        is_Some (ObjectId_parse s)) →
  (db = [] → get_matches db payload = Ok [])
  ∧ (limit payload = 0%Z → get_matches db payload = Ok []).
Proof.
  intros [bp Hbp]%(lookup_base_total db).
  rewrite (get_matches_Ok db payload bp Hbp). split.
  - intros ->. by rewrite rank_nil.
  - intros ->. by rewrite rank_0.
Qed.

(** C10 (amended).  For every match request with a negative limit [n]
    whose profile id is omitted, empty or a well-formed id, the handler
    does not fail: it returns the complete ranking without its last
    [|n|] entries, the lowest ranked ones.  When more than [|n|]
    candidates were scored the result is not empty and is longer than
    [limit], so the bound by [limit] does not hold for negative limits. *)
Theorem C10_negative_limit_drops_lowest db payload :
  (∀ s, profile_id payload = Some s → Py.truthy s = true →
        is_Some (ObjectId_parse s)) →
  (limit payload < 0)%Z →
  ∃ bp r,
    lookup_base db payload = Ok bp
    ∧ get_matches db payload = Ok r
    ∧ let full := entry_of <$>
                    Py.sort_desc fst
                      (score_all bp (base_sets bp payload).1
                                 (base_sets bp payload).2 db) in
      let k := Z.to_nat (- limit payload) in
      r = take (length full - k) full
      ∧ (∃ dropped, full = r ++ dropped ∧ length dropped = k `min` length full)
      ∧ (k < length full → r ≠ [] ∧ (limit payload < Z.of_nat (length r))%Z).
Proof.
  intros [bp Hbp]%(lookup_base_total db) Hneg. exists bp. eexists.
  split; [done|]. split; [by apply get_matches_Ok|]. simpl.
  unfold rank. rewrite PyFacts.slice_to_neg by done.
  rewrite fmap_take, length_fmap.
  set (full := entry_of <$> Py.sort_desc fst _).
  replace (length (Py.sort_desc fst _)) with (length full)
    by (unfold full; by rewrite length_fmap).
  set (k := Z.to_nat (- limit payload)).
  split_and!; [done| |].
  - exists (drop (length full - k) full). split.
    + by rewrite take_drop.
    + rewrite length_drop. lia.
  - intros Hk.
    assert (length (take (length full - k) full) = length full - k) as Hlen.
    { rewrite length_take. lia. }
    split; [|lia]. intros Hnil. rewrite Hnil in Hlen. simpl in Hlen. lia.
Qed.

End MatchingFacts.

(** ** The endpoint on a concrete pool *)

Section Examples.
Import Hex.

(** Scenario A through the endpoint: Ada against python, go and hiking. *)
Example scenario_A :
  match_score <$>
    rank None {["python"; "go"]} {["hiking"]} [ada] 10 = [(7 # 2)%Q].
Proof. reflexivity. Qed.

(** Equal scores keep the order of the pool. *)
Example ties_keep_pool_order :
  (id ∘ profile) <$> rank None ∅ ∅ [bob; ada; cyd; ada] 10
  = [_id ada; _id ada; _id cyd; _id bob].
Proof. reflexivity. Qed.

Lemma C2_witness :
  ∃ r, get_matches [ada; bob; cyd] (request (Some (_id bob)) None None 1) = Ok r
       ∧ Py.sorted_desc match_score r
       ∧ (Z.of_nat (length r) ≤ 1)%Z
       ∧ Forall (λ e, (0 <= match_score e)%Q) r.
Proof.
  eexists. split; [reflexivity|].
  pose proof (C2_ranking_sorted_and_bounded
                [ada; bob; cyd] (request (Some (_id bob)) None None 1) _
                ltac:(simpl; lia) eq_refl) as (Hs & Hl & _ & Hq).
  by split_and!.
Defined.

(** With [limit = -1] and two candidates the result has one entry,
    which is more than [limit]. *)
Lemma C2_counterexample :
  ∃ r, get_matches [ada; bob] (request None None None (-1)) = Ok r
       ∧ ¬ (Z.of_nat (length r) ≤ limit (request None None None (-1)))%Z.
Proof. eexists. split; [reflexivity|]. simpl. lia. Qed.

Lemma C3_witness :
  get_matches [ada; bob] (request (Some nobody) (Some ["go"]) None 10)
  = Ok (rank None {["go"]} ∅ [ada; bob] 10).
Proof.
  pose proof (C3_unresolved_base_falls_back_to_request
                [ada; bob] (request (Some nobody) (Some ["go"]) None 10)
                nobody nobody eq_refl eq_refl eq_refl eq_refl) as [Hg _].
  rewrite Hg. reflexivity.
Defined.

(** An unresolved id together with explicit skills: the base sets are
    not empty.  A malformed id: the handler fails. *)
Lemma C3_counterexample :
  find_one [ada] nobody = None
  ∧ get_matches [ada] (request (Some nobody) (Some ["python"]) None 10)
    ≠ Ok (rank None ∅ ∅ [ada] 10)
  ∧ ObjectId_parse malformed = (None : option string)
  ∧ get_matches [ada] (request (Some malformed) None None 10)
    = HTTPException 400.
Proof. split_and!; [reflexivity | by vm_compute | reflexivity | reflexivity]. Qed.

Lemma C4_witness :
  cyd ∈ [ada; bob; cyd]
  ∧ ∃ r, get_matches [ada; bob; cyd] (request (Some (_id cyd)) None None 10) = Ok r
         ∧ ∀ e, e ∈ r →
             id (profile e) ≠ ObjectId_str (_id cyd)
             ∧ profile e ≠ serialize_doc cyd.
Proof.
  apply (C4_base_profile_never_returned
           [ada; bob; cyd] (request (Some (_id cyd)) None None 10)
           (_id cyd) (_id cyd) cyd); reflexivity.
Defined.

Lemma C5_witness :
  ∃ r ranked,
    get_matches [bob; cyd; ada; dee ["sql"] []]
                (request (Some nobody) None None 3) = Ok r
    ∧ (id ∘ profile) <$> r = [_id ada; _id cyd; _id (dee ["sql"] [])]
    ∧ ranked ≡ₚ [bob; cyd; ada; dee ["sql"] []]
    ∧ Forall2 (λ e c,
                 profile e = serialize_doc c
                 ∧ (match_score e
                    == (1 # 2) * inject_Z (Z.of_nat (size (doc_skills c))))%Q)
              r (Py.slice_to ranked 3)
    ∧ Py.sorted_desc match_score r.
Proof.
  destruct (C5_unresolved_base_without_attributes
              [bob; cyd; ada; dee ["sql"] []]
              (request (Some nobody) None None 3) nobody nobody)
    as (_ & _ & _ & r & ranked & Hget & Hperm & _ & _ & Hrel & Hsorted);
    [reflexivity..|].
  assert (∃ r0, get_matches [bob; cyd; ada; dee ["sql"] []]
                            (request (Some nobody) None None 3) = Ok r0
                ∧ (id ∘ profile) <$> r0
                  = [_id ada; _id cyd; _id (dee ["sql"] [])])
    as (r0 & Hget0 & Hids).
  { eexists. split; reflexivity. }
  rewrite Hget0 in Hget. injection Hget as <-.
  exists r0, ranked. exact (conj Hget0 (conj Hids (conj Hperm (conj Hrel Hsorted)))).
Defined.

(** Against empty base sets Ada, who has two skills, scores 1 and is
    ranked before Bob, who comes first in the pool and scores 0. *)
Lemma C5_counterexample :
  find_one [bob; ada] nobody = None
  ∧ ∃ r, get_matches [bob; ada] (request (Some nobody) None None 10) = Ok r
         ∧ ¬ Forall (λ e, (match_score e == 0)%Q) r
         ∧ profile <$> r ≠ serialize_doc <$> Py.slice_to [bob; ada] 10.
Proof.
  split; [reflexivity|]. eexists. split; [reflexivity|]. split.
  - intros [H _]%Forall_cons. by vm_compute in H.
  - by vm_compute.
Qed.

Lemma C6_witness :
  let c := dee ["python"] ["hiking"] in
  let bs : gset string := {["python"; "go"]} in
  let bi : gset string := {["hiking"; "chess"]} in
  (score bs bi (dee ["python"] ["hiking"; "chess"])
   == score bs bi c + 2)%Q
  ∧ (score bs bi (dee ["python"; "go"] ["hiking"])
     == score bs bi c + 1)%Q
  ∧ (score bs bi (dee ["python"; "rust"] ["hiking"])
     == score bs bi c + (1 # 2))%Q.
Proof.
  intros c bs bi. split_and!.
  - apply (C6_one_more_string_raises_score bs bi c
             (dee ["python"] ["hiking"; "chess"])
             "chess"); compute_done.
  - apply (C6_one_more_string_raises_score bs bi c
             (dee ["python"; "go"] ["hiking"])
             "go"); compute_done.
  - apply (C6_one_more_string_raises_score bs bi c
             (dee ["python"; "rust"] ["hiking"])
             "rust"); compute_done.
Defined.

Lemma C7_witness :
  get_matches ([] : list (doc string)) (request (Some nobody) None None 10) = Ok []
  ∧ get_matches [ada; bob; cyd] (request None (Some ["go"]) None 0) = Ok [].
Proof.
  split.
  - assert (∀ s, profile_id (request (Some nobody) None None 10) = Some s →
                 Py.truthy s = true →
                 is_Some (ObjectId_parse (ObjectId:=string) s)) as Hwf.
    { intros s [= <-] _. by eexists. }
    by apply (proj1 (C7_empty_pool_or_zero_limit
                       [] (request (Some nobody) None None 10) Hwf)).
  - assert (∀ s, profile_id (request None (Some ["go"]) None 0) = Some s →
                 Py.truthy s = true →
                 is_Some (ObjectId_parse (ObjectId:=string) s)) as Hwf.
    { intros s [=]. }
    by apply (proj2 (C7_empty_pool_or_zero_limit
                       [ada; bob; cyd] (request None (Some ["go"]) None 0) Hwf)).
Defined.

(** A malformed id, an empty pool and [limit = 0]: the handler fails. *)
Lemma C7_counterexample :
  get_matches ([] : list (doc string)) (request (Some malformed) None None 0)
  ≠ Ok [].
Proof. by vm_compute. Qed.

Lemma C8_witness :
  score (list_to_set ["go"; "python"; "go"]) (list_to_set ["hiking"; "hiking"]) cyd
  = score (list_to_set ["python"; "go"]) (list_to_set ["hiking"])
          (Doc (_id cyd) "Cyd" "cyd@example.org" (Some ["go"]) (Some ["hiking"]))
  ∧ same_scores
      (get_matches [ada; cyd]
         (request None (Some ["go"; "python"; "go"]) (Some ["hiking"; "hiking"]) 10))
      (get_matches
         [ada; Doc (_id cyd) "Cyd" "cyd@example.org" (Some ["go"]) (Some ["hiking"])]
         (request None (Some ["python"; "go"]) (Some ["hiking"]) 10)).
Proof.
  assert (same_strings ["go"; "python"; "go"] ["python"; "go"]) as H1.
  { intros x. rewrite !elem_of_cons. tauto. }
  assert (same_strings ["hiking"; "hiking"] ["hiking"]) as H2.
  { intros x. rewrite !elem_of_cons. tauto. }
  assert (same_strings ["go"; "go"] ["go"]) as H3.
  { intros x. rewrite !elem_of_cons. tauto. }
  assert (same_strings ["hiking"] ["hiking"]) as H4 by done.
  split.
  - by apply (proj1 C8_duplicates_do_not_change_scores).
  - apply (proj2 C8_duplicates_do_not_change_scores).
    + constructor; [done|]. constructor; [|constructor]. by split_and!.
    + by split_and!.
Defined.

Lemma C9_witness :
  get_matches [ada; bob] (request (Some malformed) (Some ["go"]) None 10)
  = HTTPException 400.
Proof.
  by apply (C9_malformed_id_rejected
              [ada; bob] (request (Some malformed) (Some ["go"]) None 10)
              malformed eq_refl eq_refl).
Defined.

(** The empty string is not a well-formed id, and it is not rejected:
    it is treated as no profile id at all. *)
Lemma C9_counterexample :
  ObjectId_parse EmptyString = (None : option string)
  ∧ get_matches [ada] (request (Some EmptyString) None None 10) ≠ HTTPException 400
  ∧ get_matches [ada] (request (Some EmptyString) None None 10)
    = Ok (rank None ∅ ∅ [ada] 10).
Proof. split_and!; [reflexivity | by vm_compute | reflexivity]. Qed.

Lemma C10_witness :
  ∃ r, get_matches [bob; ada; cyd] (request None None None (-1)) = Ok r
       ∧ (id ∘ profile) <$> r = [_id ada; _id cyd]
       ∧ r ≠ [].
Proof.
  destruct (C10_negative_limit_drops_lowest
              [bob; ada; cyd] (request None None None (-1)))
    as (bp & r & Hbp & Hr & Htake & _ & Hne).
  - intros s [=].
  - reflexivity.
  - exists r. split; [done|].
    injection Hbp as <-. split.
    + rewrite Htake. reflexivity.
    + apply Hne. vm_compute. lia.
Defined.

(** A malformed id with a negative limit: the handler fails. *)
Lemma C10_counterexample :
  ¬ ∃ r, get_matches [ada; bob] (request (Some malformed) None None (-1)) = Ok r.
Proof. intros [r Hr]. by vm_compute in Hr. Qed.

End Examples.

(** * Further properties of the matching engine *)

Section RankingFacts.
Context {ObjectId : Type} `{!Bson ObjectId}.
Implicit Types (db : list (doc ObjectId)) (c b : doc ObjectId).
Implicit Types (bp : option (doc ObjectId)) (payload : MatchRequest).
Implicit Types (bs bi : gset string) (e : match_entry).

Lemma size_shared_plus_complement (X Y : gset string) :
  size (X ∩ Y) + size (Y ∖ X) = size Y.
Proof.
  rewrite <- size_union by set_solver. f_equal. apply set_eq. intros x.
  rewrite elem_of_union, elem_of_intersection, elem_of_difference.
  destruct (decide (x ∈ X)); tauto.
Qed.

Lemma size_intersection_le_r (X Y : gset string) : size (X ∩ Y) ≤ size Y.
Proof. apply subseteq_size. set_solver. Qed.

Lemma size_intersection_full (X Y : gset string) :
  size (X ∩ Y) = size Y ↔ Y ⊆ X.
Proof.
  split.
  - intros Hsz.
    assert (X ∩ Y = Y) as Heq.
    { apply set_subseteq_size_eq; [set_solver | lia]. }
    set_solver.
  - intros Hsub. f_equal. set_solver.
Qed.

Lemma inject_nat_le (n m : nat) :
  n ≤ m → (inject_Z (Z.of_nat n) <= inject_Z (Z.of_nat m))%Q.
Proof. intros Hnm. rewrite <- Zle_Qle. lia. Qed.

Lemma inject_nat_plus (n m : nat) :
  (inject_Z (Z.of_nat (n + m)) == inject_Z (Z.of_nat n) + inject_Z (Z.of_nat m))%Q.
Proof. by rewrite Nat2Z.inj_add, inject_Z_plus. Qed.

Lemma inject_nat_inj (n m : nat) :
  (inject_Z (Z.of_nat n) == inject_Z (Z.of_nat m))%Q → n = m.
Proof. unfold Qeq. simpl. lia. Qed.

Lemma score_split bs bi c :
  (score bs bi c ==
   2 * inject_Z (Z.of_nat (size (bi ∩ doc_interests c)))
   + (1 # 2) * inject_Z (Z.of_nat (size (bs ∩ doc_skills c)))
   + (1 # 2) * inject_Z (Z.of_nat (size (doc_skills c))))%Q.
Proof.
  unfold score. simpl.
  rewrite <- (size_shared_plus_complement bs (doc_skills c)).
  rewrite inject_nat_plus. ring.
Qed.

(** X1.  Every skill of a candidate counts for at least half a point,
    shared or not: the score is twice the shared interests, plus half
    the shared skills, plus half of all the candidate's distinct
    skills.  So it lies between half the number of the candidate's
    skills and twice its interests plus its skills. *)
Theorem score_bounds bs bi c :
  (score bs bi c ==
   2 * inject_Z (Z.of_nat (size (bi ∩ doc_interests c)))
   + (1 # 2) * inject_Z (Z.of_nat (size (bs ∩ doc_skills c)))
   + (1 # 2) * inject_Z (Z.of_nat (size (doc_skills c))))%Q
  ∧ ((1 # 2) * inject_Z (Z.of_nat (size (doc_skills c))) <= score bs bi c)%Q
  ∧ (score bs bi c <=
     2 * inject_Z (Z.of_nat (size (doc_interests c)))
     + inject_Z (Z.of_nat (size (doc_skills c))))%Q.
Proof.
  pose proof (score_split bs bi c) as Heq.
  pose proof (inject_nat_nonneg (size (bi ∩ doc_interests c))).
  pose proof (inject_nat_nonneg (size (bs ∩ doc_skills c))).
  pose proof (inject_nat_le _ _ (size_intersection_le_r bi (doc_interests c))).
  pose proof (inject_nat_le _ _ (size_intersection_le_r bs (doc_skills c))).
  split_and!; [done | rewrite Heq; lra | rewrite Heq; lra].
Qed.

(** X2.  A candidate reaches the highest score its own lists allow, twice its
    interests plus its skills, exactly when the base has all its skills
    and all its interests; a candidate with the very sets of the base
    does. *)
Theorem score_maximal_iff_covered bs bi c :
  ((score bs bi c ==
    2 * inject_Z (Z.of_nat (size (doc_interests c)))
    + inject_Z (Z.of_nat (size (doc_skills c))))%Q
   ↔ doc_skills c ⊆ bs ∧ doc_interests c ⊆ bi)
  ∧ (score (doc_skills c) (doc_interests c) c ==
     2 * inject_Z (Z.of_nat (size (doc_interests c)))
     + inject_Z (Z.of_nat (size (doc_skills c))))%Q.
Proof.
  assert (∀ bs bi,
    (score bs bi c ==
     2 * inject_Z (Z.of_nat (size (doc_interests c)))
     + inject_Z (Z.of_nat (size (doc_skills c))))%Q
    ↔ doc_skills c ⊆ bs ∧ doc_interests c ⊆ bi) as Hiff.
  { clear bs bi. intros bs bi.
    pose proof (score_split bs bi c) as Heq.
    pose proof (inject_nat_le _ _ (size_intersection_le_r bi (doc_interests c)))
      as Hi.
    pose proof (inject_nat_le _ _ (size_intersection_le_r bs (doc_skills c)))
      as Hs.
    rewrite <- (size_intersection_full bs), <- (size_intersection_full bi).
    split.
    - intros Hmax. rewrite Heq in Hmax.
      split; apply inject_nat_inj; lra.
    - intros [Hs' Hi']. rewrite Heq, Hs', Hi'. ring. }
  split; [apply Hiff|]. by apply Hiff.
Qed.

Lemma sorted_desc_app {A} (key : A → Q) (l1 l2 : list A) (x y : A) :
  Py.sorted_desc key (l1 ++ l2) → x ∈ l1 → y ∈ l2 → (key y <= key x)%Q.
Proof.
  induction l1 as [|z l1 IH]; simpl; [by intros _ ?%elem_of_nil|].
  intros [Hz Hs] [->|Hx]%elem_of_cons Hy.
  - apply (proj1 (Forall_forall _ _) Hz). apply elem_of_app. by right.
  - by apply IH.
Qed.

Lemma slice_to_split {A} (l : list A) (n : Z) :
  ∃ rest, l = Py.slice_to l n ++ rest
          ∧ ((Z.of_nat (length l) ≤ n)%Z → rest = []).
Proof.
  unfold Py.slice_to. destruct (0 <=? n)%Z eqn:Hn.
  - exists (drop (Z.to_nat n) l). split; [by rewrite take_drop|].
    intros Hlen. apply drop_ge. lia.
  - exists (drop (length l - Z.to_nat (- n)) l). split; [by rewrite take_drop|].
    apply Z.leb_gt in Hn. lia.
Qed.

Lemma ranking_split db payload r :
  get_matches db payload = Ok r →
  ∃ bp rest,
    lookup_base db payload = Ok bp
    ∧ r ++ rest ≡ₚ entry_of <$> score_all bp (base_sets bp payload).1
                                  (base_sets bp payload).2 db
    ∧ (∀ e e', e ∈ r → e' ∈ rest → (match_score e' <= match_score e)%Q)
    ∧ ((Z.of_nat (length db) ≤ limit payload)%Z → rest = []).
Proof.
  intros (bp & Hbp & ->)%get_matches_inv. exists bp.
  set (bs := (base_sets bp payload).1). set (bi := (base_sets bp payload).2).
  unfold rank.
  set (sorted := Py.sort_desc fst (score_all bp bs bi db)).
  destruct (slice_to_split sorted (limit payload)) as (rest & Hsplit & Hfull).
  exists (entry_of <$> rest). split_and!.
  - done.
  - rewrite <- fmap_app, <- Hsplit. unfold sorted.
    by rewrite PyFacts.sort_desc_perm.
  - intros e e' [x [-> Hx]]%list_elem_of_fmap [y [-> Hy]]%list_elem_of_fmap.
    simpl. apply (sorted_desc_app fst (Py.slice_to sorted (limit payload)) rest);
      [|done..].
    rewrite <- Hsplit. apply PyFacts.sort_desc_sorted.
  - intros Hlim. rewrite Hfull; [done|].
    unfold sorted. rewrite PyFacts.sort_desc_length.
    pose proof (score_all_length_le bp bs bi db). lia.
Qed.


(** X3.  The result is the top of the ranking: together with the entries that
    were cut, it is a rearrangement of all scored candidates, and no
    entry that was cut scores more than an entry that was returned.
    With a limit of at least the size of the pool nothing is cut. *)
Theorem results_are_the_best db payload r :
  get_matches db payload = Ok r →
  ∃ bp rest,
    lookup_base db payload = Ok bp
    ∧ r ++ rest ≡ₚ entry_of <$> score_all bp (base_sets bp payload).1
                                  (base_sets bp payload).2 db
    ∧ (∀ e e', e ∈ r → e' ∈ rest → (match_score e' <= match_score e)%Q)
    ∧ ((Z.of_nat (length db) ≤ limit payload)%Z → rest = []).
Proof. apply ranking_split. Qed.

Lemma score_all_candidates bp bs bi db :
  (score_all bp bs bi db).*2
  = match bp with
    | Some b => filter (λ c, _id c ≠ _id b) db
    | None => db
    end.
Proof.
  induction db as [|c db IH]; [by destruct bp|].
  destruct bp as [b|]; cbn [score_all].
  - rewrite filter_cons. case_bool_decide as Hid.
    + rewrite decide_False by (intros Hne; by apply Hne). exact IH.
    + rewrite decide_True by done. rewrite fmap_cons. f_equal. exact IH.
  - rewrite fmap_cons. f_equal. exact IH.
Qed.

(** X4.  With a limit of at least the size of the pool, every candidate but
    the base profile is returned, each as often as it is stored. *)
Theorem whole_pool_returned db payload r :
  (Z.of_nat (length db) ≤ limit payload)%Z →
  get_matches db payload = Ok r →
  ∃ bp, lookup_base db payload = Ok bp
        ∧ profile <$> r
          ≡ₚ serialize_doc <$>
               match bp with
               | Some b => filter (λ c, _id c ≠ _id b) db
               | None => db
               end.
Proof.
  intros Hlim Hr.
  destruct (ranking_split db payload r Hr) as (bp & rest & Hbp & Hp & _ & Hnil).
  exists bp. split; [done|].
  rewrite (Hnil Hlim), app_nil_r in Hp. rewrite Hp.
  rewrite <- (score_all_candidates bp (base_sets bp payload).1
                                   (base_sets bp payload).2 db).
  by rewrite <- !list_fmap_compose.
Qed.

(** X5.  Asking for more never reorders what a smaller limit returned: the
    result for a limit is the beginning of the result for any larger
    limit. *)
Theorem smaller_limit_gives_prefix db payload (n : Z) r r' :
  (0 ≤ limit payload ≤ n)%Z →
  get_matches db payload = Ok r →
  get_matches db {| profile_id := profile_id payload;
                    goals := goals payload;
                    req_skills := req_skills payload;
                    req_interests := req_interests payload;
                    limit := n |} = Ok r' →
  r `prefix_of` r'.
Proof.
  intros [H0 Hn] (bp & Hbp & ->)%get_matches_inv
    (bp' & Hbp' & ->)%get_matches_inv.
  assert (bp' = bp) as -> by (unfold lookup_base in *; simpl in *; congruence).
  change (base_sets bp {| profile_id := profile_id payload;
                          goals := goals payload;
                          req_skills := req_skills payload;
                          req_interests := req_interests payload;
                          limit := n |})
    with (base_sets bp payload).
  unfold rank. simpl. rewrite !PyFacts.slice_to_nonneg by lia.
  set (sorted := Py.sort_desc fst _).
  exists (entry_of <$> take (Z.to_nat n - Z.to_nat (limit payload))
                         (drop (Z.to_nat (limit payload)) sorted)).
  rewrite <- fmap_app. f_equal.
  rewrite take_take_drop. f_equal. lia.
Qed.

End RankingFacts.

(** * Properties of the document handlers *)

Module CrudFacts.
Import Crud.

Section Facts.
Context {ObjectId : Type} `{!Bson ObjectId}.
Implicit Types (d u : gmap string (value ObjectId)).
Implicit Types (coll : list (gmap string (value ObjectId))).
Implicit Types (doc : option (gmap string (value ObjectId))).
Implicit Types (oid : ObjectId) (k : string).

(** ** Queries *)

Lemma not_doc_Some d k (v : value ObjectId) :
  d !! k = Some v → not_doc (Some d) = false.
Proof.
  intros Hk. unfold not_doc. apply bool_decide_eq_false.
  intros ->%map_size_empty_iff. by rewrite lookup_empty in Hk.
Qed.

Lemma has_id_spec oid d :
  has_id oid d = true ↔ d !! "_id" = Some (VObjectId oid).
Proof.
  unfold has_id. destruct (d !! "_id") as [[]|]; try (split; done).
  rewrite bool_decide_eq_true. split; congruence.
Qed.

Lemma has_id_false oid d :
  has_id oid d = false ↔ d !! "_id" ≠ Some (VObjectId oid).
Proof. rewrite <- has_id_spec. by destruct (has_id oid d). Qed.

Lemma find_one_no_match (f : gmap string (value ObjectId) → bool) coll :
  find_one f coll = None ↔ Forall (λ x, f x = false) coll.
Proof.
  unfold find_one. induction coll as [|d coll IH]; simpl.
  - split; [constructor | done].
  - destruct (f d) eqn:Hd.
    + split; [done|]. intros [? _]%Forall_cons. congruence.
    + rewrite IH. split; [by constructor | by intros [_ ?]%Forall_cons].
Qed.

(** [find_one] returns the first document that matches. *)
Lemma find_one_first (f : gmap string (value ObjectId) → bool) coll d :
  find_one f coll = Some d ↔
  ∃ l1 l2, coll = l1 ++ d :: l2 ∧ Forall (λ x, f x = false) l1 ∧ f d = true.
Proof.
  unfold find_one. revert d. induction coll as [|c coll IH]; intros d; simpl.
  - split; [done|]. intros (l1 & l2 & Hc & _). by destruct l1.
  - destruct (f c) eqn:Hc.
    + split.
      * intros [= ->]. exists [], coll. by split_and!.
      * intros ([|x l1] & l2 & Heq & Hl1 & Hd); simplify_eq/=; [done|].
        apply Forall_cons in Hl1 as [? _]. congruence.
    + rewrite IH. split.
      * intros (l1 & l2 & -> & Hl1 & Hd). exists (c :: l1), l2.
        split_and!; [done | by constructor | done].
      * intros ([|x l1] & l2 & Heq & Hl1 & Hd); simplify_eq/=; [congruence|].
        apply Forall_cons in Hl1 as [_ Hl1]. by exists l1, l2.
Qed.

Lemma find_one_elem_of (f : gmap string (value ObjectId) → bool) coll d :
  find_one f coll = Some d → d ∈ coll ∧ f d = true.
Proof.
  intros (l1 & l2 & -> & _ & Hd)%find_one_first. split; [|done].
  apply elem_of_app. right. by left.
Qed.

(** ** [serialize_doc] *)

Lemma serialize_doc_id d oid :
  d !! "_id" = Some (VObjectId oid) →
  serialize_doc (Some d)
  = Some (delete "_id" (<["id" := VStr (ObjectId_str oid)]> d)).
Proof.
  intros Hid. unfold serialize_doc.
  by rewrite (not_doc_Some d "_id" _ Hid), Hid.
Qed.

Lemma serialize_doc_no_id d :
  (∀ oid, d !! "_id" ≠ Some (VObjectId oid)) → serialize_doc (Some d) = Some d.
Proof.
  intros Hid. unfold serialize_doc. destruct (not_doc (Some d)); [done|].
  destruct (d !! "_id") as [[]|] eqn:E; try done. by destruct (Hid o).
Qed.

(** X6.  On a document whose [_id] is an [ObjectId], [serialize_doc] removes
    the key [_id], sets the key [id] to the string of that id (replacing
    what [id] held), and leaves every other key as it was. *)
Theorem serialize_doc_renames_id d oid :
  d !! "_id" = Some (VObjectId oid) →
  ∃ d', serialize_doc (Some d) = Some d'
        ∧ d' !! "_id" = None
        ∧ d' !! "id" = Some (VStr (ObjectId_str oid))
        ∧ ∀ k, k ≠ "_id" → k ≠ "id" → d' !! k = d !! k.
Proof.
  intros Hid. eexists. split; [by apply serialize_doc_id|]. split_and!.
  - apply lookup_delete_eq.
  - rewrite lookup_delete_ne by done. apply lookup_insert_eq.
  - intros k H1 H2. rewrite lookup_delete_ne by done.
    by rewrite lookup_insert_ne.
Qed.

(** X7.  Serializing twice is serializing once, and the documents that
    [serialize_doc] returns as they are are those whose [_id] is not an
    [ObjectId]: what it returns never has one.  [None] and the empty
    document are returned as they are. *)
Theorem serialize_doc_idempotent :
  (∀ doc, serialize_doc (serialize_doc doc) = serialize_doc doc)
  ∧ (∀ d, serialize_doc (Some d) = Some d ↔
          ∀ oid, d !! "_id" ≠ Some (VObjectId oid))
  ∧ serialize_doc (ObjectId:=ObjectId) None = None
  ∧ serialize_doc (ObjectId:=ObjectId) (Some ∅) = Some ∅.
Proof.
  cut ((∀ doc, serialize_doc (serialize_doc doc) = serialize_doc doc)
       ∧ (∀ d, serialize_doc (Some d) = Some d ↔
               ∀ oid, d !! "_id" ≠ Some (VObjectId oid))).
  { intros [Hidem Hfix]. split_and!; [done | done | done |].
    apply Hfix. intros oid. by rewrite lookup_empty. }
  assert (∀ d, serialize_doc (Some d) = Some d ↔
               ∀ oid, d !! "_id" ≠ Some (VObjectId oid)) as Hfix.
  { intros d. split; [|apply serialize_doc_no_id].
    intros Hs oid Hid. rewrite (serialize_doc_id d oid Hid) in Hs.
    injection Hs as Hs. rewrite <- Hs in Hid.
    by rewrite lookup_delete_eq in Hid. }
  split; [|done]. intros [d|]; [|done].
  destruct (d !! "_id") as [v|] eqn:Hid.
  - destruct v as [| | | | |oid];
      try (rewrite !(serialize_doc_no_id d); [done|congruence..]).
    rewrite (serialize_doc_id d oid Hid). apply Hfix.
    intros o. by rewrite lookup_delete_eq.
  - rewrite !(serialize_doc_no_id d); [done|congruence..].
Qed.

(** X8.  Two documents with an [ObjectId] and no key [id] that are serialized
    alike are the same document: the rendering loses nothing. *)
Theorem serialize_doc_injective d1 d2 oid1 oid2 :
  d1 !! "_id" = Some (VObjectId oid1) → d2 !! "_id" = Some (VObjectId oid2) →
  d1 !! "id" = None → d2 !! "id" = None →
  serialize_doc (Some d1) = serialize_doc (Some d2) → d1 = d2.
Proof.
  intros H1 H2 Hn1 Hn2.
  rewrite (serialize_doc_id d1 oid1 H1), (serialize_doc_id d2 oid2 H2).
  intros [= Heq]. apply map_eq. intros k.
  pose proof (f_equal (λ m, m !! k) Heq) as Hk. simpl in Hk.
  pose proof (f_equal (λ m, m !! "id") Heq) as Hi. simpl in Hi.
  rewrite !lookup_delete_ne, !lookup_insert_eq in Hi by done.
  injection Hi as Hi%(inj ObjectId_str).
  destruct (decide (k = "_id")) as [->|Hk1]; [by rewrite H1, H2, Hi|].
  destruct (decide (k = "id")) as [->|Hk2]; [by rewrite Hn1, Hn2|].
  by rewrite !lookup_delete_ne, !lookup_insert_ne in Hk.
Qed.

(** ** [get_profile] and [get_project] *)

Lemma get_project_eq coll (s : string) : get_project coll s = get_profile coll s.
Proof. reflexivity. Qed.

Lemma get_profile_found coll (s : string) oid d :
  ObjectId_parse s = Some oid → find_one (has_id oid) coll = Some d →
  get_profile coll s
  = Ok (Some (delete "_id" (<["id" := VStr (ObjectId_str oid)]> d))).
Proof.
  intros Hp Hf. unfold get_profile. rewrite Hp. simpl. rewrite Hf.
  apply find_one_elem_of in Hf as [_ Hid%has_id_spec].
  by rewrite (not_doc_Some d "_id" _ Hid), (serialize_doc_id d oid Hid).
Qed.

Lemma get_profile_missing coll (s : string) oid :
  ObjectId_parse s = Some oid → find_one (has_id oid) coll = None →
  get_profile coll s = HTTPException 404.
Proof. intros Hp Hf. unfold get_profile. by rewrite Hp, Hf. Qed.

(** X10.  [get_profile] and [get_project] fail with status 404 and no other,
    and they fail exactly when the id is not well formed or no stored
    document has it. *)
Theorem get_by_id_fails_with_404 coll (s : string) :
  (∀ code, get_profile coll s = HTTPException code → code = 404%Z)
  ∧ (get_profile coll s = HTTPException 404 ↔
     ObjectId_parse s = None
     ∨ ∃ oid, ObjectId_parse s = Some oid
              ∧ ∀ d, d ∈ coll → d !! "_id" ≠ Some (VObjectId oid))
  ∧ get_project coll s = get_profile coll s.
Proof.
  split_and!; [| |done].
  - unfold get_profile. destruct (ObjectId_parse s) as [oid|]; [|congruence].
    simpl. destruct (not_doc _); congruence.
  - split.
    + destruct (ObjectId_parse s) as [oid|] eqn:Hp; [|by left].
      destruct (find_one (has_id oid) coll) as [d|] eqn:Hf.
      * by rewrite (get_profile_found coll s oid d Hp Hf).
      * intros _. right. exists oid. split; [done|].
        apply find_one_no_match in Hf. intros d Hd.
        apply has_id_false. by apply (proj1 (Forall_forall _ _) Hf).
    + intros [Hp|(oid & Hp & Hno)].
      * unfold get_profile. by rewrite Hp.
      * apply (get_profile_missing coll s oid Hp).
        apply find_one_no_match, Forall_forall. intros d Hd.
        by apply has_id_false, Hno.
Qed.

Lemma get_profile_inv coll (s : string) doc :
  get_profile coll s = Ok doc →
  ∃ oid d l1 l2,
    ObjectId_parse s = Some oid
    ∧ coll = l1 ++ d :: l2
    ∧ (∀ x, x ∈ l1 → x !! "_id" ≠ Some (VObjectId oid))
    ∧ d !! "_id" = Some (VObjectId oid)
    ∧ doc = Some (delete "_id" (<["id" := VStr (ObjectId_str oid)]> d)).
Proof.
  destruct (ObjectId_parse s) as [oid|] eqn:Hp;
    [|unfold get_profile; by rewrite Hp].
  destruct (find_one (has_id oid) coll) as [d|] eqn:Hf;
    [|by rewrite (get_profile_missing coll s oid Hp Hf)].
  rewrite (get_profile_found coll s oid d Hp Hf). intros [= <-].
  apply find_one_first in Hf as (l1 & l2 & -> & Hl1 & Hd%has_id_spec).
  exists oid, d, l1, l2. split_and!; try done.
  intros x Hx. by apply has_id_false, (proj1 (Forall_forall _ _) Hl1).
Qed.

(** X11.  What [get_profile] returns is never null: it is the rendering of a
    stored document, the first one with the id asked for, and its key
    [id] holds the string of that id. *)
Theorem get_profile_returns_stored coll (s : string) doc :
  get_profile coll s = Ok doc →
  ∃ oid d l1 l2,
    ObjectId_parse s = Some oid
    ∧ coll = l1 ++ d :: l2
    ∧ (∀ x, x ∈ l1 → x !! "_id" ≠ Some (VObjectId oid))
    ∧ d !! "_id" = Some (VObjectId oid)
    ∧ doc = Some (delete "_id" (<["id" := VStr (ObjectId_str oid)]> d)).
Proof. apply get_profile_inv. Qed.

(** X12.  The id that a returned profile carries fetches the same profile
    again, for an id whose string [ObjectId] reads back. *)
Theorem get_profile_by_returned_id coll (s : string) doc :
  (∀ oid, ObjectId_parse s = Some oid →
          ObjectId_parse (ObjectId_str oid) = Some oid) →
  get_profile coll s = Ok doc →
  ∃ d' s', doc = Some d' ∧ d' !! "id" = Some (VStr s')
           ∧ get_profile coll s' = Ok doc.
Proof.
  intros Hround Hget.
  destruct (get_profile_inv coll s doc Hget)
    as (oid & d & l1 & l2 & Hp & -> & Hl1 & Hd & ->).
  eexists _, (ObjectId_str oid). split_and!; [done| |].
  - rewrite lookup_delete_ne by done. apply lookup_insert_eq.
  - apply (get_profile_found _ _ oid d (Hround oid Hp)).
    apply find_one_first. exists l1, l2. split_and!; [done| |by apply has_id_spec].
    apply Forall_forall. intros x Hx. by apply has_id_false, Hl1.
Qed.

(** ** The fields an update carries *)

#[local] Abbreviation dump_profile := (dump_profile_update (ObjectId:=ObjectId)).
#[local] Abbreviation dump_project := (dump_project_update (ObjectId:=ObjectId)).

Lemma lookup_put_eq k (v : option (value ObjectId)) d :
  put k v d !! k = match v with Some x => Some x | None => d !! k end.
Proof. destruct v; simpl; [apply lookup_insert_eq | done]. Qed.

Lemma lookup_put_ne k k' (v : option (value ObjectId)) d :
  k ≠ k' → put k v d !! k' = d !! k'.
Proof. intros Hk. destruct v; simpl; [by apply lookup_insert_ne | done]. Qed.

Ltac lookup_dump :=
  repeat first
    [ rewrite lookup_put_eq
    | rewrite lookup_put_ne by done
    | rewrite lookup_empty ].

(** The keys of [ProfileUpdate] and of [ProjectUpdate]. *)
Lemma dump_profile_update_keys (p : ProfileUpdate.t) k :
  k ∉ ["name"; "headline"; "bio"; "skills"; "interests"; "timezone";
       "availability"; "goals"; "links"; "verified"] →
  dump_profile p !! k = None.
Proof.
  rewrite !not_elem_of_cons. intros (?&?&?&?&?&?&?&?&?&?&_).
  unfold dump_profile_update. by lookup_dump.
Qed.

Lemma dump_project_update_keys (p : ProjectUpdate.t) k :
  k ∉ ["title"; "brief"; "tags"; "roles_needed"; "status"; "visibility"] →
  dump_project p !! k = None.
Proof.
  rewrite !not_elem_of_cons. intros (?&?&?&?&?&?&_).
  unfold dump_project_update. by lookup_dump.
Qed.

Lemma dump_profile_update_lookup (p : ProfileUpdate.t) :
  dump_profile p !! "name" = VStr <$> ProfileUpdate.name p
  ∧ dump_profile p !! "headline" = VStr <$> ProfileUpdate.headline p
  ∧ dump_profile p !! "bio" = VStr <$> ProfileUpdate.bio p
  ∧ dump_profile p !! "skills" = VList <$> ProfileUpdate.skills p
  ∧ dump_profile p !! "interests" = VList <$> ProfileUpdate.interests p
  ∧ dump_profile p !! "timezone" = VStr <$> ProfileUpdate.timezone p
  ∧ dump_profile p !! "availability"
    = VStr <$> ProfileUpdate.availability p
  ∧ dump_profile p !! "goals" = VStr <$> ProfileUpdate.goals p
  ∧ dump_profile p !! "links" = VList <$> ProfileUpdate.links p
  ∧ dump_profile p !! "verified" = VBool <$> ProfileUpdate.verified p.
Proof.
  unfold dump_profile_update.
  split_and!; lookup_dump;
    match goal with |- match ?o with _ => _ end = _ => by destruct o end.
Qed.

(** Nothing is dumped exactly when no field was given; an empty string,
    an empty list and [False] are given values. *)
Lemma dump_profile_update_empty (p : ProfileUpdate.t) :
  size (dump_profile p) = 0 ↔
  p = {| ProfileUpdate.name := None; ProfileUpdate.headline := None;
         ProfileUpdate.bio := None; ProfileUpdate.skills := None;
         ProfileUpdate.interests := None; ProfileUpdate.timezone := None;
         ProfileUpdate.availability := None; ProfileUpdate.goals := None;
         ProfileUpdate.links := None; ProfileUpdate.verified := None |}.
Proof.
  split; [|by intros ->].
  intros Hsz%map_size_empty_iff.
  destruct (dump_profile_update_lookup p)
    as (H1 & H2 & H3 & H4 & H5 & H6 & H7 & H8 & H9 & H10).
  rewrite Hsz, lookup_empty in H1, H2, H3, H4, H5, H6, H7, H8, H9, H10.
  destruct p as [n h b sk i t a g l v]; simpl in *.
  destruct n; [done|]. destruct h; [done|]. destruct b; [done|].
  destruct sk; [done|]. destruct i; [done|]. destruct t; [done|].
  destruct a; [done|]. destruct g; [done|]. destruct l; [done|].
  by destruct v.
Qed.

(** ** [update_one] *)

Lemma update_one_unmatched (f : gmap string (value ObjectId) → bool) u coll :
  Forall (λ x, f x = false) coll → update_one f u coll = (0, coll).
Proof.
  induction 1 as [|d coll Hd _ IH]; simpl; [done|]. by rewrite Hd, IH.
Qed.

Lemma update_one_matched (f : gmap string (value ObjectId) → bool) u l1 d l2 :
  Forall (λ x, f x = false) l1 → f d = true →
  update_one f u (l1 ++ d :: l2) = (1, l1 ++ (u ∪ d) :: l2).
Proof.
  intros Hl1 Hd. induction Hl1 as [|x l1 Hx _ IH]; simpl.
  - by rewrite Hd.
  - by rewrite Hx, IH.
Qed.

Lemma first_match (f : gmap string (value ObjectId) → bool) coll :
  Forall (λ x, f x = false) coll
  ∨ ∃ l1 d l2, coll = l1 ++ d :: l2 ∧ Forall (λ x, f x = false) l1
               ∧ f d = true.
Proof.
  destruct (find_one f coll) as [d|] eqn:Hf.
  - right. apply find_one_first in Hf as (l1 & l2 & ?). by exists l1, d, l2.
  - left. by apply find_one_no_match.
Qed.

Lemma lookup_set u d k :
  (u ∪ d) !! k = match u !! k with Some v => Some v | None => d !! k end.
Proof.
  rewrite lookup_union. destruct (u !! k), (d !! k); done.
Qed.

Lemma has_id_set oid u d :
  u !! "_id" = None → has_id oid (u ∪ d) = has_id oid d.
Proof. intros Hu. unfold has_id. by rewrite lookup_set, Hu. Qed.

(** ** The update handlers *)

Lemma update_profile_eq coll (s : string) (p : ProfileUpdate.t) :
  update_profile coll s p = update_by_id (dump_profile p) coll s.
Proof. reflexivity. Qed.

Lemma update_project_eq coll (s : string) (p : ProjectUpdate.t) :
  update_project coll s p = update_by_id (dump_project p) coll s.
Proof. reflexivity. Qed.

Lemma update_by_id_nothing u coll (s : string) :
  size u = 0 → update_by_id u coll s = (Ok NotUpdated, coll).
Proof. intros Hu. unfold update_by_id. by rewrite bool_decide_eq_true_2. Qed.

Lemma update_by_id_malformed u coll (s : string) :
  size u ≠ 0 → ObjectId_parse s = None →
  update_by_id u coll s = (HTTPException 400, coll).
Proof.
  intros Hu Hp. unfold update_by_id.
  by rewrite bool_decide_eq_false_2, Hp.
Qed.

Lemma update_by_id_missing u coll (s : string) oid :
  size u ≠ 0 → ObjectId_parse s = Some oid →
  Forall (λ x, has_id oid x = false) coll →
  update_by_id u coll s = (HTTPException 404, coll).
Proof.
  intros Hu Hp Hno. unfold update_by_id.
  by rewrite bool_decide_eq_false_2, Hp, update_one_unmatched.
Qed.

Lemma update_by_id_found u (s : string) oid l1 d l2 :
  size u ≠ 0 → u !! "_id" = None → ObjectId_parse s = Some oid →
  Forall (λ x, has_id oid x = false) l1 → has_id oid d = true →
  update_by_id u (l1 ++ d :: l2) s
  = (Ok (Document
           (Some (delete "_id" (<["id" := VStr (ObjectId_str oid)]> (u ∪ d))))),
     l1 ++ (u ∪ d) :: l2).
Proof.
  intros Hu Hid Hp Hl1 Hd. unfold update_by_id.
  rewrite bool_decide_eq_false_2, Hp, update_one_matched by done. simpl.
  assert (has_id oid (u ∪ d) = true) as Hd' by by rewrite has_id_set.
  assert (find_one (has_id oid) (l1 ++ (u ∪ d) :: l2) = Some (u ∪ d)) as ->.
  { apply find_one_first. by exists l1, l2. }
  by rewrite (serialize_doc_id _ oid (proj1 (has_id_spec _ _) Hd')).
Qed.

(** The four outcomes of an update, for update data without [_id]. *)
Lemma update_by_id_cases u coll (s : string) :
  u !! "_id" = None →
  (size u = 0 ∧ update_by_id u coll s = (Ok NotUpdated, coll))
  ∨ (size u ≠ 0 ∧ ObjectId_parse s = None
     ∧ update_by_id u coll s = (HTTPException 400, coll))
  ∨ (size u ≠ 0
     ∧ ∃ oid, ObjectId_parse s = Some oid
              ∧ Forall (λ x, has_id oid x = false) coll
              ∧ update_by_id u coll s = (HTTPException 404, coll))
  ∨ (size u ≠ 0
     ∧ ∃ oid l1 d l2,
         ObjectId_parse s = Some oid ∧ coll = l1 ++ d :: l2
         ∧ Forall (λ x, has_id oid x = false) l1 ∧ has_id oid d = true
         ∧ update_by_id u coll s
           = (Ok (Document
                    (Some (delete "_id"
                             (<["id" := VStr (ObjectId_str oid)]> (u ∪ d))))),
              l1 ++ (u ∪ d) :: l2)).
Proof.
  intros Hid. destruct (decide (size u = 0)) as [Hu|Hu].
  { left. split; [done|]. by apply update_by_id_nothing. }
  right. destruct (ObjectId_parse s) as [oid|] eqn:Hp.
  - right. destruct (first_match (has_id oid) coll)
      as [Hno|(l1 & d & l2 & -> & Hl1 & Hd)].
    + left. split; [done|]. exists oid. split_and!; [done..|].
      by apply (update_by_id_missing u coll s oid).
    + right. split; [done|]. exists oid, l1, d, l2. split_and!; [done..|].
      by apply update_by_id_found.
  - left. split_and!; [done..|]. by apply update_by_id_malformed.
Qed.

Lemma dump_profile_no_id (p : ProfileUpdate.t) : dump_profile p !! "_id" = None.
Proof. apply dump_profile_update_keys. compute_done. Qed.

Lemma dump_project_no_id (p : ProjectUpdate.t) : dump_project p !! "_id" = None.
Proof. apply dump_project_update_keys. compute_done. Qed.

#[local] Abbreviation no_fields :=
  {| ProfileUpdate.name := None; ProfileUpdate.headline := None;
     ProfileUpdate.bio := None; ProfileUpdate.skills := None;
     ProfileUpdate.interests := None; ProfileUpdate.timezone := None;
     ProfileUpdate.availability := None; ProfileUpdate.goals := None;
     ProfileUpdate.links := None; ProfileUpdate.verified := None |}.

(** X13.  [update_profile] answers [{"updated": False}] exactly when the
    payload gives no field at all (an empty string, an empty list or
    [False] is a given field), and it then leaves the collection as it
    is without looking at the id, which may be malformed or unknown. *)
Theorem update_profile_nothing_given coll (s : string) (p : ProfileUpdate.t) :
  ((update_profile coll s p).1 = Ok NotUpdated ↔ p = no_fields)
  ∧ (p = no_fields → update_profile coll s p = (Ok NotUpdated, coll)).
Proof.
  rewrite update_profile_eq.
  assert (p = no_fields → update_by_id (dump_profile p) coll s
                          = (Ok NotUpdated, coll)) as Hnone.
  { intros Hp. apply update_by_id_nothing. by apply dump_profile_update_empty. }
  split; [|done]. split; [|by intros ->%Hnone].
  destruct (update_by_id_cases (dump_profile p) coll s (dump_profile_no_id p))
    as [[Hu _]|[(_ & _ & ->)|[(_ & oid & _ & _ & ->)
       |(_ & oid & l1 & d & l2 & _ & _ & _ & _ & ->)]]]; simpl; try done.
  intros _. by apply dump_profile_update_empty.
Qed.

(** X14.  When [update_profile] fails the collection is unchanged; the status
    is 400 for an id that is not well formed and 404 for a well-formed
    id that no stored profile has, and it is no other. *)
Theorem update_profile_failure coll (s : string) (p : ProfileUpdate.t) code coll' :
  update_profile coll s p = (HTTPException code, coll') →
  coll' = coll
  ∧ p ≠ no_fields
  ∧ ((code = 400%Z ∧ ObjectId_parse s = None)
     ∨ (code = 404%Z
        ∧ ∃ oid, ObjectId_parse s = Some oid
                 ∧ ∀ d, d ∈ coll → d !! "_id" ≠ Some (VObjectId oid))).
Proof.
  rewrite update_profile_eq.
  destruct (update_by_id_cases (dump_profile p) coll s (dump_profile_no_id p))
    as [[_ ->]|[(Hu & Hp & ->)|[(Hu & oid & Hp & Hno & ->)
       |(_ & oid & l1 & d & l2 & _ & _ & _ & _ & ->)]]]; try done.
  - intros [= <- <-]. split_and!; [done| |by left].
    by intros ?%dump_profile_update_empty.
  - intros [= <- <-]. split_and!; [done| |right].
    + by intros ?%dump_profile_update_empty.
    + split; [done|]. exists oid. split; [done|]. intros d Hd.
      by apply has_id_false, (proj1 (Forall_forall _ _) Hno).
Qed.

(** X15.  When [update_profile] succeeds, it has changed one document, the
    first with the id: every field the payload gives has its new value
    there and every other key of it is as before; all other documents
    are as before; and the response renders the document as it now is. *)
Theorem update_profile_sets_fields coll (s : string) (p : ProfileUpdate.t)
    body coll' :
  update_profile coll s p = (Ok (Document body), coll') →
  ∃ oid l1 d d' l2,
    ObjectId_parse s = Some oid
    ∧ coll = l1 ++ d :: l2 ∧ coll' = l1 ++ d' :: l2
    ∧ (∀ x, x ∈ l1 → x !! "_id" ≠ Some (VObjectId oid))
    ∧ d !! "_id" = Some (VObjectId oid)
    ∧ (∀ k v, dump_profile p !! k = Some v → d' !! k = Some v)
    ∧ (∀ k, dump_profile p !! k = None → d' !! k = d !! k)
    ∧ body = Some (delete "_id" (<["id" := VStr (ObjectId_str oid)]> d'))
    ∧ body = serialize_doc (Some d').
Proof.
  rewrite update_profile_eq.
  destruct (update_by_id_cases (dump_profile p) coll s (dump_profile_no_id p))
    as [[_ ->]|[(Hu & Hp & ->)|[(Hu & oid & Hp & Hno & ->)
       |(_ & oid & l1 & d & l2 & Hp & -> & Hl1 & Hd & ->)]]]; try done.
  intros [= <- <-]. exists oid, l1, d, (dump_profile p ∪ d), l2.
  apply has_id_spec in Hd.
  split_and!; try done.
  - intros x Hx. by apply has_id_false, (proj1 (Forall_forall _ _) Hl1).
  - intros k v Hk. by rewrite lookup_set, Hk.
  - intros k Hk. by rewrite lookup_set, Hk.
  - symmetry. apply serialize_doc_id.
    by rewrite lookup_set, dump_profile_no_id.
Qed.

Lemma Forall2_same {A} (R : A → A → Prop) (l : list A) :
  (∀ x, R x x) → Forall2 R l l.
Proof. intros HR. induction l; by constructor. Qed.

Lemma update_by_id_keeps u coll (s : string) :
  u !! "_id" = None →
  Forall2 (λ d d', ∀ k, u !! k = None → d' !! k = d !! k)
          coll (update_by_id u coll s).2.
Proof.
  intros Hid.
  destruct (update_by_id_cases u coll s Hid)
    as [[_ ->]|[(Hu & Hp & ->)|[(Hu & oid & Hp & Hno & ->)
       |(_ & oid & l1 & d & l2 & Hp & -> & Hl1 & Hd & ->)]]]; simpl;
    try (by apply Forall2_same).
  apply Forall2_app; [by apply Forall2_same|].
  constructor; [|by apply Forall2_same].
  intros k Hk. by rewrite lookup_set, Hk.
Qed.

(** X16.  Whatever the id and the payload, [update_profile] keeps the number
    and the order of the stored profiles and never changes a key that
    [ProfileUpdate] does not have: not [_id], not [email], not
    [reputation_score]. *)
Theorem update_profile_keeps_other_keys coll (s : string) (p : ProfileUpdate.t) :
  Forall2 (λ d d',
             (∀ k, k ∉ ["name"; "headline"; "bio"; "skills"; "interests";
                        "timezone"; "availability"; "goals"; "links";
                        "verified"] → d' !! k = d !! k)
             ∧ d' !! "_id" = d !! "_id"
             ∧ d' !! "email" = d !! "email"
             ∧ d' !! "reputation_score" = d !! "reputation_score")
          coll (update_profile coll s p).2.
Proof.
  rewrite update_profile_eq.
  eapply Forall2_impl;
    [apply (update_by_id_keeps _ _ _ (dump_profile_no_id p))|].
  simpl. intros d d' Hk.
  assert (∀ k, k ∉ ["name"; "headline"; "bio"; "skills"; "interests";
                    "timezone"; "availability"; "goals"; "links";
                    "verified"] → d' !! k = d !! k) as Hkeys.
  { intros k Hnot. by apply Hk, dump_profile_update_keys. }
  split_and!; [done|..]; apply Hkeys; compute_done.
Qed.

Lemma update_by_id_idempotent u coll (s : string) :
  u !! "_id" = None →
  update_by_id u (update_by_id u coll s).2 s = update_by_id u coll s.
Proof.
  intros Hid.
  destruct (update_by_id_cases u coll s Hid)
    as [[_ Heq]|[(Hu & Hp & Heq)|[(Hu & oid & Hp & Hno & Heq)
       |(Hu & oid & l1 & d & l2 & Hp & -> & Hl1 & Hd & Heq)]]];
    rewrite Heq; simpl; [done..|].
  rewrite (update_by_id_found u s oid l1 (u ∪ d) l2);
    [|done|done|done|done|by rewrite has_id_set].
  by rewrite (assoc_L (∪)), (idemp_L (∪)).
Qed.

(** X17.  Sending the same update again changes nothing more and gets the
    same response. *)
Theorem update_profile_idempotent coll (s : string) (p : ProfileUpdate.t) :
  update_profile (update_profile coll s p).2 s p = update_profile coll s p.
Proof.
  rewrite !update_profile_eq.
  apply update_by_id_idempotent, dump_profile_no_id.
Qed.

Lemma update_by_id_then_get u coll (s : string) body coll' :
  u !! "_id" = None →
  update_by_id u coll s = (Ok (Document body), coll') →
  get_profile coll' s = Ok body.
Proof.
  intros Hid.
  destruct (update_by_id_cases u coll s Hid)
    as [[_ ->]|[(Hu & Hp & ->)|[(Hu & oid & Hp & Hno & ->)
       |(Hu & oid & l1 & d & l2 & Hp & -> & Hl1 & Hd & ->)]]]; try done.
  intros [= <- <-]. apply (get_profile_found _ _ oid (u ∪ d) Hp).
  apply find_one_first. exists l1, l2. split_and!; [done..|].
  by rewrite has_id_set.
Qed.

(** X18.  Reading a profile right after a successful update returns what the
    update returned. *)
Theorem update_profile_then_get coll (s : string) (p : ProfileUpdate.t)
    body coll' :
  update_profile coll s p = (Ok (Document body), coll') →
  get_profile coll' s = Ok body.
Proof.
  rewrite update_profile_eq.
  apply update_by_id_then_get, dump_profile_no_id.
Qed.

(** X19.  [update_project] never changes a key that [ProjectUpdate] does not
    have: a project keeps its [_id] and its [owner_id]; sending the
    same update again changes nothing more; and [get_project] right
    after a successful update returns what the update returned. *)
Theorem update_project_keeps_owner coll (s : string) (p : ProjectUpdate.t) :
  Forall2 (λ d d',
             (∀ k, k ∉ ["title"; "brief"; "tags"; "roles_needed"; "status";
                        "visibility"] → d' !! k = d !! k)
             ∧ d' !! "_id" = d !! "_id"
             ∧ d' !! "owner_id" = d !! "owner_id")
          coll (update_project coll s p).2
  ∧ update_project (update_project coll s p).2 s p = update_project coll s p
  ∧ (∀ body coll',
       update_project coll s p = (Ok (Document body), coll') →
       get_project coll' s = Ok body).
Proof.
  rewrite !update_project_eq. split_and!.
  - eapply Forall2_impl;
      [apply (update_by_id_keeps _ _ _ (dump_project_no_id p))|].
    simpl. intros d d' Hk.
    assert (∀ k, k ∉ ["title"; "brief"; "tags"; "roles_needed"; "status";
                      "visibility"] → d' !! k = d !! k) as Hkeys.
    { intros k Hnot. by apply Hk, dump_project_update_keys. }
    split_and!; [done|..]; apply Hkeys; compute_done.
  - apply update_by_id_idempotent, dump_project_no_id.
  - intros body coll'. rewrite get_project_eq.
    apply update_by_id_then_get, dump_project_no_id.
Qed.

(** ** [create_profile] *)

Lemma has_email_key (e : string) d :
  has_email e d = true → ∃ v, d !! "email" = Some v.
Proof. unfold has_email. destruct (d !! "email"); [by eauto | done]. Qed.

(** X20.  [create_profile] answers 409 exactly when a stored profile has the
    email of the payload, and then nothing is inserted: the collection
    is as before.  Its only other failure status is 500. *)
Theorem create_profile_conflict
    (create_document : list (gmap string (value ObjectId)) → Profile.t →
                       option string * list (gmap string (value ObjectId)))
    coll (payload : Profile.t) :
  ((create_profile create_document coll payload).1 = HTTPException 409 ↔
   ∃ d, d ∈ coll ∧ has_email (Profile.email payload) d = true)
  ∧ ((∃ d, d ∈ coll ∧ has_email (Profile.email payload) d = true) →
     create_profile create_document coll payload = (HTTPException 409, coll))
  ∧ (∀ code,
       (create_profile create_document coll payload).1 = HTTPException code →
       code = 409%Z ∨ code = 500%Z).
Proof.
  unfold create_profile.
  destruct (find_one (has_email (Profile.email payload)) coll) as [d|] eqn:Hf.
  - pose proof (find_one_elem_of _ _ _ Hf) as [Hd He].
    destruct (has_email_key _ _ He) as [v Hv].
    rewrite (not_doc_Some d "email" v Hv). simpl.
    split_and!; [split; by eauto | done | intros code [= <-]; by left].
  - simpl. apply find_one_no_match in Hf.
    assert (¬ ∃ d, d ∈ coll ∧ has_email (Profile.email payload) d = true)
      as Hnone.
    { intros (d & Hd & He).
      apply (proj1 (Forall_forall _ _) Hf) in Hd. congruence. }
    destruct (create_document coll payload) as [[i|] coll'];
      [destruct (ObjectId_parse i)|]; simpl;
      (split_and!; [split; [done | by intros ?%Hnone] | by intros ?%Hnone
                   | intros code [= <-]; by right || done]).
Qed.

End Facts.
End CrudFacts.

(** ** The two renderings of a profile agree *)

Section Renderings.
Context {ObjectId : Type} `{!Bson ObjectId}.

(** X9.  What the matching engine renders for a candidate is what
    [serialize_doc] returns on the candidate's document: [_id] becomes
    [id] with the string of the id, and name, email, skills and
    interests are kept, a missing list staying missing. *)
Theorem rendering_of_a_candidate (c : doc ObjectId) :
  Crud.serialize_doc (Some (Crud.doc_dict c))
  = Some (Crud.serialized_dict (serialize_doc c)).
Proof.
  rewrite (CrudFacts.serialize_doc_id _ (_id c)) by apply lookup_insert_eq.
  f_equal. unfold Crud.doc_dict, Crud.serialized_dict. simpl.
  apply map_eq. intros k.
  destruct (decide (k = "_id")) as [->|H1].
  { rewrite lookup_delete_eq. symmetry.
    rewrite !lookup_insert_ne by done.
    rewrite !CrudFacts.lookup_put_ne by done. apply lookup_empty. }
  rewrite lookup_delete_ne by done.
  destruct (decide (k = "id")) as [->|H2].
  { by rewrite !lookup_insert_eq. }
  rewrite !(lookup_insert_ne _ "id"), (lookup_insert_ne _ "_id") by done.
  done.
Qed.

End Renderings.

(** ** The further properties on the concrete pool and collections *)

Import Hex.

Lemma results_are_the_best_witness :
  ∃ r rest,
    get_matches [bob; ada; cyd] (request None (Some ["go"]) None 1) = Ok r
    ∧ length (r ++ rest) = 3
    ∧ ∀ e e', e ∈ r → e' ∈ rest → (match_score e' <= match_score e)%Q.
Proof.
  destruct (results_are_the_best
              [bob; ada; cyd] (request None (Some ["go"]) None 1) _ eq_refl)
    as (bp & rest & Hbp & Hperm & Hbest & _).
  injection Hbp as <-.
  eexists _, rest. split_and!; [reflexivity| |exact Hbest].
  by rewrite (Permutation_length Hperm).
Defined.

Lemma whole_pool_returned_witness :
  ∃ r, get_matches [ada; bob; cyd] (request (Some (_id bob)) None None 3) = Ok r
       ∧ profile <$> r ≡ₚ serialize_doc <$> [ada; cyd].
Proof.
  destruct (whole_pool_returned
              [ada; bob; cyd] (request (Some (_id bob)) None None 3) _
              ltac:(simpl; lia) eq_refl) as (bp & Hbp & Hperm).
  injection Hbp as <-. eexists. split; [reflexivity|]. exact Hperm.
Defined.

Lemma smaller_limit_gives_prefix_witness :
  ∃ r r',
    get_matches [bob; ada; cyd] (request None (Some ["go"]) None 1) = Ok r
    ∧ get_matches [bob; ada; cyd] (request None (Some ["go"]) None 2) = Ok r'
    ∧ length r = 1 ∧ length r' = 2 ∧ r `prefix_of` r'.
Proof.
  eexists _, _. split_and!; [reflexivity | reflexivity | done | done |].
  apply (smaller_limit_gives_prefix
           [bob; ada; cyd] (request None (Some ["go"]) None 1) 2);
    [simpl; lia | reflexivity | reflexivity].
Defined.

Lemma serialize_doc_renames_id_witness :
  ∃ d', Crud.serialize_doc (Some (Crud.doc_dict ada)) = Some d'
        ∧ d' !! "_id" = None
        ∧ d' !! "id" = Some (Crud.VStr (ObjectId_str (_id ada)))
        ∧ ∀ k, k ≠ "_id" → k ≠ "id" → d' !! k = Crud.doc_dict ada !! k.
Proof.
  apply (CrudFacts.serialize_doc_renames_id (Crud.doc_dict ada) (_id ada)).
  reflexivity.
Defined.

Lemma serialize_doc_injective_witness :
  <["headline" := Crud.VNone]> (Crud.doc_dict bob)
  = <["_id" := Crud.VObjectId (_id bob)]>
      (<["headline" := Crud.VNone]> (delete "_id" (Crud.doc_dict bob))).
Proof.
  by apply (CrudFacts.serialize_doc_injective _ _ (_id bob) (_id bob)).
Defined.

Lemma get_by_id_fails_with_404_witness :
  ∃ code, Crud.get_profile CrudHex.profiles malformed = HTTPException code
          ∧ code = 404%Z.
Proof.
  eexists. split; [reflexivity|].
  by apply (proj1 (CrudFacts.get_by_id_fails_with_404
                     CrudHex.profiles malformed)).
Defined.

Ltac by_vm := vm_compute; first [reflexivity | discriminate].

Lemma sample_find_bob :
  Crud.find_one (Crud.has_id (_id bob)) CrudHex.profiles
  = Some (Crud.doc_dict bob).
Proof.
  apply CrudFacts.find_one_first. exists [Crud.doc_dict ada], [].
  split_and!; [reflexivity | | by_vm].
  constructor; [by_vm | constructor].
Qed.

Lemma sample_get_bob (s : string) :
  ObjectId_parse s = Some (_id bob) →
  Crud.get_profile CrudHex.profiles s
  = Ok (Some (delete "_id"
                (<["id" := Crud.VStr (ObjectId_str (_id bob))]>
                   (Crud.doc_dict bob)))).
Proof.
  intros Hp. exact (CrudFacts.get_profile_found _ _ _ _ Hp sample_find_bob).
Qed.

Lemma get_profile_returns_stored_witness :
  ∃ oid d l1 l2,
    Crud.get_profile CrudHex.profiles (_id bob)
    = Ok (Some (delete "_id"
                  (<["id" := Crud.VStr (ObjectId_str (_id bob))]>
                     (Crud.doc_dict bob))))
    ∧ ObjectId_parse (_id bob) = Some oid
    ∧ CrudHex.profiles = l1 ++ d :: l2
    ∧ d !! "_id" = Some (Crud.VObjectId oid).
Proof.
  pose proof (sample_get_bob (_id bob) ltac:(by_vm)) as Hget.
  destruct (CrudFacts.get_profile_returns_stored
              CrudHex.profiles (_id bob) _ Hget)
    as (oid & d & l1 & l2 & Hp & Hc & _ & Hd & _).
  exists oid, d, l1, l2. exact (conj Hget (conj Hp (conj Hc Hd))).
Defined.

(** An id spelled in upper case is found, and the profile comes back
    with the id in lower case, which fetches it again. *)
Lemma get_profile_by_returned_id_witness :
  ∃ d' s',
    Crud.get_profile CrudHex.profiles "65F0A1B2C3D4E5F601234568"
    = Ok (Some d')
    ∧ d' !! "id" = Some (Crud.VStr s')
    ∧ Crud.get_profile CrudHex.profiles s' = Ok (Some d').
Proof.
  pose proof (sample_get_bob "65F0A1B2C3D4E5F601234568" ltac:(by_vm)) as Hget.
  assert (∀ oid : string,
            ObjectId_parse "65F0A1B2C3D4E5F601234568" = Some oid →
            ObjectId_parse (ObjectId_str oid) = Some oid) as Hround.
  { intros oid Hp. vm_compute in Hp. injection Hp as <-. by_vm. }
  destruct (CrudFacts.get_profile_by_returned_id
              CrudHex.profiles "65F0A1B2C3D4E5F601234568" _ Hround Hget)
    as (d' & s' & Hdoc & Hid & Hagain).
  injection Hdoc as <-. eexists _, s'.
  exact (conj Hget (conj Hid Hagain)).
Defined.

Lemma update_profile_nothing_given_witness :
  Crud.update_profile CrudHex.profiles malformed CrudHex.nothing
  = (Ok Crud.NotUpdated, CrudHex.profiles).
Proof.
  exact (proj2 (CrudFacts.update_profile_nothing_given
                  CrudHex.profiles malformed CrudHex.nothing) eq_refl).
Defined.

Lemma sample_update_unknown :
  Crud.update_profile CrudHex.profiles nobody (CrudHex.rename "Ada L.")
  = (HTTPException 404, CrudHex.profiles).
Proof.
  rewrite CrudFacts.update_profile_eq.
  apply (CrudFacts.update_by_id_missing _ _ _ nobody); [by_vm | by_vm |].
  constructor; [by_vm|]. constructor; [by_vm|]. constructor.
Qed.

Lemma update_profile_failure_witness :
  Crud.update_profile CrudHex.profiles nobody (CrudHex.rename "Ada L.")
  = (HTTPException 404, CrudHex.profiles)
  ∧ ∃ oid, ObjectId_parse nobody = Some oid
           ∧ ∀ d, d ∈ CrudHex.profiles → d !! "_id" ≠ Some (Crud.VObjectId oid).
Proof.
  split; [exact sample_update_unknown|].
  destruct (CrudFacts.update_profile_failure
              CrudHex.profiles nobody (CrudHex.rename "Ada L.") _ _
              sample_update_unknown)
    as (_ & _ & [[[=] _]|[_ Hno]]).
  exact Hno.
Defined.

Lemma sample_update_ada :
  Crud.update_profile CrudHex.profiles (_id ada) (CrudHex.rename "Ada L.")
  = (Ok (Crud.Document
           (Some (delete "_id"
                    (<["id" := Crud.VStr (ObjectId_str (_id ada))]>
                       (Crud.dump_profile_update (CrudHex.rename "Ada L.")
                        ∪ Crud.doc_dict ada))))),
     [Crud.dump_profile_update (CrudHex.rename "Ada L.") ∪ Crud.doc_dict ada;
      Crud.doc_dict bob]).
Proof.
  rewrite CrudFacts.update_profile_eq.
  apply (CrudFacts.update_by_id_found _ _ (_id ada) [] (Crud.doc_dict ada)
           [Crud.doc_dict bob]); [by_vm | by_vm | by_vm | constructor | by_vm].
Qed.

Lemma update_profile_sets_fields_witness :
  ∃ d' : gmap string (Crud.value string),
    (Crud.update_profile CrudHex.profiles (_id ada) (CrudHex.rename "Ada L.")).2
    = [d'; Crud.doc_dict bob]
    ∧ d' !! "name" = Some (Crud.VStr "Ada L.")
    ∧ d' !! "skills" = Some (Crud.VList [])
    ∧ d' !! "email" = Crud.doc_dict ada !! "email".
Proof.
  destruct (CrudFacts.update_profile_sets_fields
              CrudHex.profiles (_id ada) (CrudHex.rename "Ada L.") _ _
              sample_update_ada)
    as (oid & l1 & d & d' & l2 & Hp & Hc & Hc' & Hl1 & Hd & Hset & Hkeep & _).
  assert (l1 = [] ∧ d = Crud.doc_dict ada ∧ l2 = [Crud.doc_dict bob])
    as (-> & -> & ->).
  { destruct l1 as [|x l1]; [by injection Hc as <- <-|].
    injection Hc as <- _. vm_compute in Hp. injection Hp as <-.
    exfalso. apply (Hl1 (Crud.doc_dict ada)); [by left | by_vm]. }
  exists d'. rewrite sample_update_ada. split_and!.
  - simpl in Hc'. exact Hc'.
  - apply Hset. by_vm.
  - apply Hset. by_vm.
  - apply Hkeep. by_vm.
Defined.

Lemma update_profile_then_get_witness :
  Crud.get_profile
    [Crud.dump_profile_update (CrudHex.rename "Ada L.") ∪ Crud.doc_dict ada;
     Crud.doc_dict bob] (_id ada)
  = Ok (Some (delete "_id"
                (<["id" := Crud.VStr (ObjectId_str (_id ada))]>
                   (Crud.dump_profile_update (CrudHex.rename "Ada L.")
                    ∪ Crud.doc_dict ada)))).
Proof.
  exact (CrudFacts.update_profile_then_get
           CrudHex.profiles (_id ada) (CrudHex.rename "Ada L.") _ _
           sample_update_ada).
Defined.

Lemma sample_update_project :
  Crud.update_project CrudHex.projects CrudHex.project_id CrudHex.complete
  = (Ok (Crud.Document
           (Some (delete "_id"
                    (<["id" := Crud.VStr (ObjectId_str CrudHex.project_id)]>
                       (Crud.dump_project_update CrudHex.complete
                        ∪ default ∅ (head CrudHex.projects)))))),
     [Crud.dump_project_update CrudHex.complete
      ∪ default ∅ (head CrudHex.projects)]).
Proof.
  rewrite CrudFacts.update_project_eq.
  apply (CrudFacts.update_by_id_found _ _ CrudHex.project_id []
           (default ∅ (head CrudHex.projects)) []);
    [by_vm | by_vm | by_vm | constructor | by_vm].
Qed.

Lemma update_project_keeps_owner_witness :
  Crud.get_project
    [Crud.dump_project_update CrudHex.complete
     ∪ default ∅ (head CrudHex.projects)]
    CrudHex.project_id
  = Ok (Some (delete "_id"
                (<["id" := Crud.VStr (ObjectId_str CrudHex.project_id)]>
                   (Crud.dump_project_update CrudHex.complete
                    ∪ default ∅ (head CrudHex.projects))))).
Proof.
  exact (proj2 (proj2 (CrudFacts.update_project_keeps_owner
                         CrudHex.projects CrudHex.project_id
                         CrudHex.complete)) _ _ sample_update_project).
Defined.

(** A second sign-up with Ada's email is refused and nothing is stored. *)
Lemma create_profile_conflict_witness :
  Crud.create_profile (CrudHex.insert_as nobody) CrudHex.profiles
    (CrudHex.signup "ada@example.org")
  = (HTTPException 409, CrudHex.profiles).
Proof.
  apply (proj1 (proj2 (CrudFacts.create_profile_conflict
                         (CrudHex.insert_as nobody) CrudHex.profiles
                         (CrudHex.signup "ada@example.org")))).
  exists (Crud.doc_dict ada). split; [by left | by_vm].
Defined.
